(** * Source acquisition (src/git-source-provider.ts)

    A shallow embedding of [getSource] and [getGitCommandManager].  The
    function is an orchestrator: it sequences calls to collaborators (the
    filesystem helpers, the git command manager, the auth helper, the ref
    helper and the GitHub API helper), mutates one field of its settings
    object ([settings.ref]) and relies on [try]/[catch]/[finally] for its
    error handling.  The embedding is a small monad that threads the settings
    object, records every collaborator call together with its result, and
    propagates thrown errors; collaborators are an arbitrary environment. *)

From Stdlib Require Import String List ZArith Bool Lia.
Import ListNotations.
Open Scope string_scope.
Open Scope Z_scope.
Open Scope list_scope.

(** ** Data *)

(** [IGitSourceSettings] (git-source-settings.ts), restricted to the fields
    that [getSource] reads. *)
Record IGitSourceSettings := mkSettings {
  repositoryPath : string;
  repositoryOwner : string;
  repositoryName : string;
  ref : string;
  commit : string;
  clean : bool;
  fetchDepth : Z;
  lfs : bool;
  submodules : bool;
  nestedSubmodules : bool;
  submodulesRemoteBranch : string;
  authToken : string;
  sshKey : string;
  persistCredentials : bool
}.

(** The assignment [settings.ref = v]. *)
Definition set_ref (s : IGitSourceSettings) (v : string) : IGitSourceSettings :=
  {| repositoryPath := repositoryPath s;
     repositoryOwner := repositoryOwner s;
     repositoryName := repositoryName s;
     ref := v;
     commit := commit s;
     clean := clean s;
     fetchDepth := fetchDepth s;
     lfs := lfs s;
     submodules := submodules s;
     nestedSubmodules := nestedSubmodules s;
     submodulesRemoteBranch := submodulesRemoteBranch s;
     authToken := authToken s;
     sshKey := sshKey s;
     persistCredentials := persistCredentials s |}.

(** JavaScript truthiness of a string: only the empty string is falsy. *)
Definition truthy (x : string) : bool :=
  match x with EmptyString => false | String _ _ => true end.

(** A command manager is identified by the arguments it was created with. *)
Record IGitCommandManager := mkGit {
  workingDirectory : string;
  lfsRequired : bool
}.

(** [ICheckoutInfo] of ref-helper.ts. *)
Record ICheckoutInfo := mkCheckoutInfo {
  checkoutRef : string;
  startPoint : string
}.

(** Methods of [IGitCommandManager] used by [getSource]. *)
Inductive GitOp :=
| Init
| RemoteAdd (name url : string)
| TryDisableAutomaticGarbageCollection
| RemoteBranchExists (r : string)
| GetDefaultBranch (url : string)
| LfsInstall
| Fetch (refSpec : list string) (depth : option Z)
| LfsFetch (r : string)
| Checkout (r start : string)
| SubmoduleSync (recursive : bool)
| SubmoduleUpdate (depth : Z) (recursive : bool)
| SubmoduleForeach (command : string) (recursive : bool)
| GetSubmodulesList
| Log1 (format : option string).

(** Every side-effecting collaborator call made by [getSource]. *)
Inductive Call :=
| FileExistsSync (p : string)
| DirectoryExistsSync (p : string)
| RmRF (p : string)
| MkdirP (p : string)
| CreateCommandManager (wd : string) (withLfs : bool)
| PrepareExistingDirectory (git : option IGitCommandManager)
    (path url : string) (cleanFlag : bool) (r : string)
| DownloadRepository (token owner name r c path : string)
| ApiGetDefaultBranch (token owner name : string)
| SetRepositoryPath (p : string)
| CreateAuthHelper (git : IGitCommandManager)
| ConfigureAuth
| ConfigureGlobalAuth
| ConfigureSubmoduleAuth
| RemoveGlobalAuth
| RemoveAuth
| TestRef (git : IGitCommandManager) (r c : string)
| GetCheckoutInfo (git : IGitCommandManager) (r c : string)
| CheckCommitInfo (token commitInfo owner name r c : string)
| Git (git : IGitCommandManager) (op : GitOp).

(** The result of an awaited call: a value, or a thrown error. *)
Inductive Outcome (A : Type) :=
| Ok (a : A)
| Throw (e : string).
Arguments Ok {A} a.
Arguments Throw {A} e.

Definition map_outcome {A B} (f : A -> B) (o : Outcome A) : Outcome B :=
  match o with Ok a => Ok (f a) | Throw e => Throw e end.

(** Values as they are recorded in the log. *)
Inductive Value :=
| VUnit
| VBool (b : bool)
| VString (x : string)
| VStrings (l : list string)
| VCheckoutInfo (ci : ICheckoutInfo).

Definition Entry : Type := Call * Outcome Value.
Definition Log : Type := list Entry.

(** ** Environment

    The collaborators.  Each awaited call is answered by a function of the
    interaction so far and of the call, so the outcome of a call may depend on
    everything that happened before it.  The string helpers of ref-helper.ts
    and url-helper.ts are side-effect free and are functions of their
    arguments; they may throw.  Collaborators do not assign the fields of the
    settings object: only [getSource] does, at lines 110 and 112. *)
Record Env := mkEnv {
  answer_unit : Log -> Call -> Outcome unit;
  answer_bool : Log -> Call -> Outcome bool;
  answer_string : Log -> Call -> Outcome string;
  answer_strings : Log -> Call -> Outcome (list string);
  answer_checkout : Log -> Call -> Outcome ICheckoutInfo;
  getFetchUrl : IGitSourceSettings -> Outcome string;
  getRefSpec : string -> string -> Outcome (list string);
  getRefSpecForAllHistory : string -> string -> Outcome (list string);
  pathJoin : string -> string -> string;
  MinimumGitVersion : string
}.

(** ** The monad

    A computation reads the settings object and the log so far, and returns
    its outcome, the settings object as it left it, and the entries it added
    to the log. *)
Definition M (A : Type) : Type :=
  IGitSourceSettings -> Log -> Outcome A * IGitSourceSettings * Log.

Definition ret {A} (a : A) : M A := fun s _ => (Ok a, s, []).

Definition throw {A} (e : string) : M A := fun s _ => (Throw e, s, []).

Definition bind {A B} (m : M A) (f : A -> M B) : M B :=
  fun s h =>
    match m s h with
    | (Ok a, s1, d1) =>
        match f a s1 (h ++ d1) with
        | (r, s2, d2) => (r, s2, d1 ++ d2)
        end
    | (Throw e, s1, d1) => (Throw e, s1, d1)
    end.

(** [try { body } finally { fin }]: [fin] always runs; an error thrown by
    [fin] replaces the outcome of [body]. *)
Definition try_finally {A} (body : M A) (fin : M unit) : M A :=
  fun s h =>
    match body s h with
    | (r1, s1, d1) =>
        match fin s1 (h ++ d1) with
        | (Ok _, s2, d2) => (r1, s2, d1 ++ d2)
        | (Throw e, s2, d2) => (Throw e, s2, d1 ++ d2)
        end
    end.

(** [try { body } catch (err) { handler }]. *)
Definition try_catch {A} (body : M A) (handler : string -> M A) : M A :=
  fun s h =>
    match body s h with
    | (Ok a, s1, d1) => (Ok a, s1, d1)
    | (Throw e, s1, d1) =>
        match handler e s1 (h ++ d1) with
        | (r, s2, d2) => (r, s2, d1 ++ d2)
        end
    end.

Definition settings : M IGitSourceSettings := fun s _ => (Ok s, s, []).

Definition assign_ref (v : string) : M unit := fun s _ => (Ok tt, set_ref s v, []).

Definition lift {A} (o : Outcome A) : M A := fun s _ => (o, s, []).

Definition invoke {T} (inj : T -> Value) (answer : Log -> Call -> Outcome T)
  (c : Call) : M T :=
  fun s h => let r := answer h c in (r, s, [(c, map_outcome inj r)]).

Declare Scope prog_scope.
Delimit Scope prog_scope with prog.
Notation "x <- m ;; k" := (bind m (fun x => k))
  (at level 100, m at next level, right associativity) : prog_scope.
Notation "m ;; k" := (bind m (fun _ => k))
  (at level 100, right associativity) : prog_scope.
Open Scope prog_scope.

(** [for (const x of l) { body }]. *)
Fixpoint forEach {A} (l : list A) (body : A -> M unit) : M unit :=
  match l with
  | [] => ret tt
  | x :: rest => body x ;; forEach rest body
  end.

Definition when (b : bool) (m : M unit) : M unit := if b then m else ret tt.

(** ** The program *)

Section Program.

Variable env : Env.

(** Awaited collaborator calls, by the type of what they resolve to. *)
Definition call (c : Call) : M unit := invoke (fun _ => VUnit) (answer_unit env) c.
Definition ask (c : Call) : M bool := invoke VBool (answer_bool env) c.
Definition query (c : Call) : M string := invoke VString (answer_string env) c.
Definition queryList (c : Call) : M (list string) :=
  invoke VStrings (answer_strings env) c.
Definition queryCheckout (c : Call) : M ICheckoutInfo :=
  invoke VCheckoutInfo (answer_checkout env) c.

(** [gitCommandManager.createCommandManager(workingDirectory, lfs)]. *)
Definition createCommandManager (wd : string) (withLfs : bool)
  : M IGitCommandManager :=
  call (CreateCommandManager wd withLfs) ;;
  ret (mkGit wd withLfs).

(** [getGitCommandManager], lines 290-308. *)
Definition getGitCommandManager (wd : string) (withLfs : bool)
  : M (option IGitCommandManager) :=
  try_catch
    (git <- createCommandManager wd withLfs ;; ret (Some git))
    (fun err =>
       (* Git is required for LFS *)
       if withLfs then throw err
       (* Otherwise fallback to REST API *)
       else ret None).

(** Lines 22-32: remove a conflicting file, create the directory; the result
    is [isExisting]. *)
Definition prepareDirectory : M bool :=
  s <- settings ;;
  conflicting <- ask (FileExistsSync (repositoryPath s)) ;;
  when conflicting (call (RmRF (repositoryPath s))) ;;
  present <- ask (DirectoryExistsSync (repositoryPath s)) ;;
  if negb present
  then call (MkdirP (repositoryPath s)) ;; ret false
  else ret true.

Definition submodulesNotSupported : string :=
  ("Input 'submodules' not supported when falling back to download using the GitHub REST API. To create a local Git repository instead, add Git "
   ++ MinimumGitVersion env ++ " or higher to the PATH.")%string.

Definition sshKeyNotSupported : string :=
  ("Input 'ssh-key' not supported when falling back to download using the GitHub REST API. To create a local Git repository instead, add Git "
   ++ MinimumGitVersion env ++ " or higher to the PATH.")%string.

(** Lines 50-75: the body of [if (!git)]. *)
Definition downloadUsingRestApi : M unit :=
  s <- settings ;;
  if submodules s then throw submodulesNotSupported
  else if truthy (sshKey s) then throw sshKeyNotSupported
  else
    call (DownloadRepository (authToken s) (repositoryOwner s)
            (repositoryName s) (ref s) (commit s) (repositoryPath s)).

(** Lines 77-97: save state, initialize the repository, disable automatic
    garbage collection (a failure to do so is only logged). *)
Definition initializeRepository (git : IGitCommandManager) (repositoryUrl : string)
  : M unit :=
  s <- settings ;;
  call (SetRepositoryPath (repositoryPath s)) ;;
  hasGitDir <- ask (DirectoryExistsSync (pathJoin env (repositoryPath s) ".git")) ;;
  when (negb hasGitDir)
    (call (Git git Init) ;;
     call (Git git (RemoteAdd "origin" repositoryUrl))) ;;
  _ <- ask (Git git TryDisableAutomaticGarbageCollection) ;;
  ret tt.

(** The condition of line 107:
    [(!ref && !commit) || (ref && !(await git.remoteBranchExists(ref)))]. *)
Definition defaultBranchNeeded (git : IGitCommandManager) : M bool :=
  s <- settings ;;
  if negb (truthy (ref s)) && negb (truthy (commit s)) then ret true
  else if truthy (ref s)
       then found <- ask (Git git (RemoteBranchExists (ref s))) ;; ret (negb found)
       else ret false.

(** Lines 106-119: determine the default branch. *)
Definition determineDefaultBranch (git : IGitCommandManager) (repositoryUrl : string)
  : M unit :=
  needed <- defaultBranchNeeded git ;;
  when needed
    (s <- settings ;;
     if truthy (sshKey s)
     then v <- query (Git git (GetDefaultBranch repositoryUrl)) ;; assign_ref v
     else v <- query (ApiGetDefaultBranch (authToken s) (repositoryOwner s)
                        (repositoryName s)) ;;
          assign_ref v).

(** Lines 121-124. *)
Definition installLfs (git : IGitCommandManager) : M unit :=
  s <- settings ;;
  when (lfs s) (call (Git git LfsInstall)).

(** Lines 126-146: fetch. *)
Definition fetchRepository (git : IGitCommandManager) : M unit :=
  s <- settings ;;
  if fetchDepth s <=? 0 then
    (* Fetch all branches and tags *)
    refSpec <- lift (getRefSpecForAllHistory env (ref s) (commit s)) ;;
    call (Git git (Fetch refSpec None)) ;;
    (* the ref may have moved: fetch again with a targeted refspec *)
    s <- settings ;;
    matches <- ask (TestRef git (ref s) (commit s)) ;;
    when (negb matches)
      (s <- settings ;;
       refSpec <- lift (getRefSpec env (ref s) (commit s)) ;;
       call (Git git (Fetch refSpec None)))
  else
    refSpec <- lift (getRefSpec env (ref s) (commit s)) ;;
    call (Git git (Fetch refSpec (Some (fetchDepth s)))).

(** [checkoutInfo.startPoint || checkoutInfo.ref]. *)
Definition lfsFetchTarget (ci : ICheckoutInfo) : string :=
  if truthy (startPoint ci) then startPoint ci else checkoutRef ci.

(** Lines 148-169: checkout info, LFS fetch, checkout. *)
Definition checkoutRequestedRef (git : IGitCommandManager) : M unit :=
  s <- settings ;;
  checkoutInfo <- queryCheckout (GetCheckoutInfo git (ref s) (commit s)) ;;
  when (lfs s) (call (Git git (LfsFetch (lfsFetchTarget checkoutInfo)))) ;;
  call (Git git (Checkout (checkoutRef checkoutInfo) (startPoint checkoutInfo))).

(** The path [settings.repositoryPath + '/' + sub]. *)
Definition submodulePath (s : IGitSourceSettings) (sub : string) : string :=
  (repositoryPath s ++ "/" ++ sub)%string.

(** Lines 205-234: the body of the loop over the submodules list. *)
Definition checkoutSubmoduleRemoteBranch (sub : string) : M unit :=
  s <- settings ;;
  subGit <- getGitCommandManager (submodulePath s sub) (lfs s) ;;
  match subGit with
  | None => ret tt
  | Some subGit =>
      exposed <- ask (Git subGit (RemoteBranchExists (submodulesRemoteBranch s))) ;;
      when exposed
        (when (lfs s) (call (Git subGit LfsInstall)) ;;
         when (0 <? fetchDepth s)
           (refSpec <- lift (getRefSpec env (submodulesRemoteBranch s) "") ;;
            call (Git subGit (Fetch refSpec (Some (fetchDepth s))))) ;;
         subCheckoutInfo <-
           queryCheckout (GetCheckoutInfo subGit (submodulesRemoteBranch s) "") ;;
         when (lfs s) (call (Git subGit (LfsFetch (lfsFetchTarget subCheckoutInfo)))) ;;
         call (Git subGit (Checkout (checkoutRef subCheckoutInfo)
                             (startPoint subCheckoutInfo))))
  end.

(** Lines 174-237: the body of the inner [try]. *)
Definition fetchSubmodules (git : IGitCommandManager) : M unit :=
  s <- settings ;;
  (* Temporarily override global config *)
  call ConfigureGlobalAuth ;;
  (* Checkout submodules *)
  call (Git git (SubmoduleSync (nestedSubmodules s))) ;;
  call (Git git (SubmoduleUpdate (fetchDepth s) (nestedSubmodules s))) ;;
  call (Git git (SubmoduleForeach "git config --local gc.auto 0"
                   (nestedSubmodules s))) ;;
  (* Persist credentials *)
  when (persistCredentials s || truthy (submodulesRemoteBranch s))
    (call ConfigureSubmoduleAuth) ;;
  (* Checkout submodules remote branch *)
  when (truthy (submodulesRemoteBranch s))
    (submodulesList <- queryList (Git git GetSubmodulesList) ;;
     forEach submodulesList checkoutSubmoduleRemoteBranch).

(** Lines 171-242: submodules. *)
Definition checkoutSubmodules (git : IGitCommandManager) : M unit :=
  s <- settings ;;
  when (submodules s)
    (try_finally (fetchSubmodules git)
       (* Remove temporary global config override *)
       (call RemoveGlobalAuth)).

(** Lines 244-258: commit information and the pull request merge check. *)
Definition checkCommit (git : IGitCommandManager) : M unit :=
  commitInfo <- query (Git git (Log1 None)) ;;
  _ <- query (Git git (Log1 (Some "--format='%H'"))) ;;
  s <- settings ;;
  call (CheckCommitInfo (authToken s) commitInfo (repositoryOwner s)
          (repositoryName s) (ref s) (commit s)).

(** Lines 101-258: the body of the outer [try]. *)
Definition acquire (git : IGitCommandManager) (repositoryUrl : string) : M unit :=
  call ConfigureAuth ;;
  determineDefaultBranch git repositoryUrl ;;
  installLfs git ;;
  fetchRepository git ;;
  checkoutRequestedRef git ;;
  checkoutSubmodules git ;;
  checkCommit git.

(** Lines 259-266: the outer [finally]. *)
Definition removeAuthUnlessPersisted : M unit :=
  s <- settings ;;
  when (negb (persistCredentials s)) (call RemoveAuth).

(** [getSource], lines 15-267.  The calls to [core.info], [core.startGroup],
    [core.endGroup], [core.debug] and [core.warning] only write to the log of
    the runner and are left out. *)
Definition getSource : M unit :=
  s <- settings ;;
  repositoryUrl <- lift (getFetchUrl env s) ;;
  isExisting <- prepareDirectory ;;
  git <- getGitCommandManager (repositoryPath s) (lfs s) ;;
  (* Prepare existing directory, otherwise recreate *)
  when isExisting
    (call (PrepareExistingDirectory git (repositoryPath s) repositoryUrl
             (clean s) (ref s))) ;;
  match git with
  | None => downloadUsingRestApi
  | Some git =>
      initializeRepository git repositoryUrl ;;
      call (CreateAuthHelper git) ;;
      try_finally (acquire git repositoryUrl) removeAuthUnlessPersisted
  end.

End Program.

(** ** Observing a run *)

Definition outcome_of {A} (x : Outcome A * IGitSourceSettings * Log) : Outcome A :=
  fst (fst x).
Definition settings_of {A} (x : Outcome A * IGitSourceSettings * Log)
  : IGitSourceSettings := snd (fst x).
Definition log_of {A} (x : Outcome A * IGitSourceSettings * Log) : Log := snd x.

(** A call to [getSource] starts from an empty log. *)
Definition run (env : Env) (s : IGitSourceSettings) :=
  getSource env s [].

(** The calls of a log, without their results. *)
Definition calls (l : Log) : list Call := map fst l.

(** The command manager of the repository itself. *)
Definition mainGit (s : IGitSourceSettings) : IGitCommandManager :=
  mkGit (repositoryPath s) (lfs s).

(** The entries of a log whose call is selected by [rel], in order. *)
Definition proj (rel : Call -> bool) (l : Log) : Log :=
  filter (fun e => rel (fst e)) l.

(** [spec rel m s P]: started on settings [s], after any interaction, [m]
    ends with an outcome, settings and selected entries related by [P]. *)
Definition spec {A} (rel : Call -> bool) (m : M A) (s : IGitSourceSettings)
  (P : Outcome A -> IGitSourceSettings -> Log -> Prop) : Prop :=
  forall h, P (outcome_of (m s h)) (settings_of (m s h)) (proj rel (log_of (m s h))).

(** [silent rel m s]: [m] leaves the settings alone and makes no selected
    call. *)
Definition silent {A} (rel : Call -> bool) (m : M A) (s : IGitSourceSettings)
  : Prop :=
  spec rel m s (fun _ s' p => s' = s /\ p = []).

(** What [try]/[finally] surfaces from the outcomes of its two blocks. *)
Definition surfaced {A} (body : Outcome A) (fin : Outcome unit) : Outcome A :=
  match fin with Ok _ => body | Throw e => Throw e end.

(** ** Selections of calls *)

(** The calls that bracket the credentials of the repository: the creation of
    its command manager, [configureAuth] and [removeAuth]. *)
Definition authScope (s : IGitSourceSettings) (c : Call) : bool :=
  match c with
  | CreateCommandManager wd _ => String.eqb wd (repositoryPath s)
  | ConfigureAuth | RemoveAuth => true
  | _ => false
  end.

Definition isRemoveAuth (c : Call) : bool :=
  match c with RemoveAuth => true | _ => false end.

(** The creation of the command manager of the repository, and its result
    when it succeeds. *)
Definition createMain (s : IGitSourceSettings) : Call :=
  CreateCommandManager (repositoryPath s) (lfs s).

Definition created (s : IGitSourceSettings) : Entry := (createMain s, Ok VUnit).

(** ** Sample environments

    Collaborators that answer by the call alone: [fails] selects the calls
    that throw, [yes] answers the boolean queries, [text] the string queries
    and [items] the list queries. *)
Definition scripted (fails yes : Call -> bool) (text : Call -> string)
  (items : Call -> list string) : Env :=
  {| answer_unit := fun _ c => if fails c then Throw "failed" else Ok tt;
     answer_bool := fun _ c => if fails c then Throw "failed" else Ok (yes c);
     answer_string := fun _ c => if fails c then Throw "failed" else Ok (text c);
     answer_strings := fun _ c => if fails c then Throw "failed" else Ok (items c);
     answer_checkout := fun _ c =>
       if fails c then Throw "failed"
       else match c with
            | GetCheckoutInfo _ r _ => Ok (mkCheckoutInfo r "")
            | _ => Ok (mkCheckoutInfo "" "")
            end;
     getFetchUrl := fun s =>
       Ok ("https://github.com/" ++ repositoryOwner s ++ "/" ++ repositoryName s)%string;
     getRefSpec := fun r c => Ok ["targeted"; r; c];
     getRefSpecForAllHistory := fun r c => Ok ["all"; r; c];
     pathJoin := fun a b => (a ++ "/" ++ b)%string;
     MinimumGitVersion := "2.18" |}.

Definition never (c : Call) : bool := false.

(** A fresh workspace, a repository whose default branch is [main], two
    submodules. *)
Definition freshYes (c : Call) : bool :=
  match c with
  | FileExistsSync _ | DirectoryExistsSync _ => false
  | _ => true
  end.

Definition demoText (c : Call) : string :=
  match c with
  | ApiGetDefaultBranch _ _ _ => "refs/heads/main"
  | Git _ (GetDefaultBranch _) => "refs/heads/trunk"
  | _ => "0123abc"
  end.

Definition demoItems (c : Call) : list string := ["libs/a"; "libs/b"].

Definition demoEnv : Env := scripted never freshYes demoText demoItems.

Definition demoSettings : IGitSourceSettings :=
  {| repositoryPath := "/work/repo";
     repositoryOwner := "octo";
     repositoryName := "demo";
     ref := "refs/heads/dev";
     commit := "";
     clean := true;
     fetchDepth := 1;
     lfs := false;
     submodules := false;
     nestedSubmodules := false;
     submodulesRemoteBranch := "";
     authToken := "token";
     sshKey := "";
     persistCredentials := false |}.

Definition persistingSettings : IGitSourceSettings :=
  {| repositoryPath := "/work/repo";
     repositoryOwner := "octo";
     repositoryName := "demo";
     ref := "refs/heads/dev";
     commit := "";
     clean := true;
     fetchDepth := 1;
     lfs := false;
     submodules := false;
     nestedSubmodules := false;
     submodulesRemoteBranch := "";
     authToken := "token";
     sshKey := "";
     persistCredentials := true |}.

(** ** The two acquisition methods *)

(** The archive download. *)
Definition isDownload (c : Call) : bool :=
  match c with DownloadRepository _ _ _ _ _ _ => true | _ => false end.

(** The calls that go through a command manager: its methods, the helpers
    that are handed one, and the auth helper built on one. *)
Definition usesGit (c : Call) : bool :=
  match c with
  | Git _ _ | TestRef _ _ _ | GetCheckoutInfo _ _ _ | CreateAuthHelper _
  | ConfigureAuth | ConfigureGlobalAuth | ConfigureSubmoduleAuth
  | RemoveGlobalAuth | RemoveAuth
  | PrepareExistingDirectory (Some _) _ _ _ _ => true
  | _ => false
  end.

Definition methodScope (c : Call) : bool := isDownload c || usesGit c.

(** A call of the native method, with its result. *)
Definition viaGit (x : Entry) : Prop :=
  usesGit (fst x) = true /\ isDownload (fst x) = false.

(** What matters to the choice of the method: the creation of the command
    manager of the repository, the preparation of an existing directory, and
    the calls of either method. *)
Definition fallbackScope (s : IGitSourceSettings) (c : Call) : bool :=
  match c with
  | CreateCommandManager wd _ => String.eqb wd (repositoryPath s)
  | PrepareExistingDirectory _ _ _ _ _ => true
  | _ => methodScope c
  end.

Definition downloadCall (s : IGitSourceSettings) : Call :=
  DownloadRepository (authToken s) (repositoryOwner s) (repositoryName s)
    (ref s) (commit s) (repositoryPath s).

Definition prepareWithoutGit (s : IGitSourceSettings) (url : string) : Call :=
  PrepareExistingDirectory None (repositoryPath s) url (clean s) (ref s).

(** The run of [getSource] after [getGitCommandManager] returned
    [undefined]: [rest] are the selected calls that follow, [out] is the
    outcome of [getSource]. *)
Definition fallbackRun (env : Env) (s : IGitSourceSettings) (rest : Log)
  (out : Outcome unit) : Prop :=
  exists url, getFetchUrl env s = Ok url /\
  ((exists e, rest = [(prepareWithoutGit s url, Throw e)] /\ out = Throw e)
   \/ exists pre,
        (pre = [] \/ pre = [(prepareWithoutGit s url, Ok VUnit)]) /\
        ((submodules s = true /\ rest = pre
          /\ out = Throw (submodulesNotSupported env))
         \/ (submodules s = false /\ truthy (sshKey s) = true /\ rest = pre
             /\ out = Throw (sshKeyNotSupported env))
         \/ (submodules s = false /\ truthy (sshKey s) = false
             /\ rest = pre ++ [(downloadCall s,
                                 map_outcome (fun _ => VUnit) out)]))).

(** No git on the machine: creating a command manager throws. *)
Definition isCreate (c : Call) : bool :=
  match c with CreateCommandManager _ _ => true | _ => false end.

Definition noGitEnv : Env := scripted isCreate freshYes demoText demoItems.

Definition submoduleSettings : IGitSourceSettings :=
  {| repositoryPath := "/work/repo";
     repositoryOwner := "octo";
     repositoryName := "demo";
     ref := "refs/heads/dev";
     commit := "";
     clean := true;
     fetchDepth := 1;
     lfs := false;
     submodules := true;
     nestedSubmodules := false;
     submodulesRemoteBranch := "";
     authToken := "token";
     sshKey := "";
     persistCredentials := false |}.

Definition lfsSettings : IGitSourceSettings :=
  {| repositoryPath := "/work/repo";
     repositoryOwner := "octo";
     repositoryName := "demo";
     ref := "refs/heads/dev";
     commit := "";
     clean := true;
     fetchDepth := 1;
     lfs := true;
     submodules := false;
     nestedSubmodules := false;
     submodulesRemoteBranch := "";
     authToken := "token";
     sshKey := "";
     persistCredentials := false |}.

(** [emits rel Q m s]: [m] changes at most [settings.ref], and every selected
    call it makes, with its result, satisfies [Q]. *)
Definition emits {A} (rel : Call -> bool) (Q : Entry -> Prop) (m : M A)
  (s : IGitSourceSettings) : Prop :=
  spec rel m s (fun _ s' p => (exists v, s' = set_ref s v) /\ Forall Q p).

(** ** Default branch and fetch *)

Definition onRoot (s : IGitSourceSettings) (git : IGitCommandManager) : bool :=
  String.eqb (workingDirectory git) (repositoryPath s).

(** [configureAuth], the default-branch resolution and the fetches of the
    repository itself. *)
Definition resolveScope (s : IGitSourceSettings) (c : Call) : bool :=
  match c with
  | ConfigureAuth => true
  | ApiGetDefaultBranch _ _ _ => true
  | Git git (RemoteBranchExists _) => onRoot s git
  | Git git (GetDefaultBranch _) => onRoot s git
  | Git git (Fetch _ _) => onRoot s git
  | _ => false
  end.

(** The fetches of the repository itself and the check that follows the
    fetch of all history. *)
Definition fetchScope (s : IGitSourceSettings) (c : Call) : bool :=
  match c with
  | Git git (Fetch _ _) => onRoot s git
  | TestRef git _ _ => onRoot s git
  | _ => false
  end.

(** [configureAuth] together with the calls of [fetchScope]. *)
Definition reachScope (s : IGitSourceSettings) (c : Call) : bool :=
  match c with
  | ConfigureAuth => true
  | _ => fetchScope s c
  end.

(** The default-branch lookup of lines 109-117. *)
Definition lookupCall (s : IGitSourceSettings) (url : string) : Call :=
  if truthy (sshKey s)
  then Git (mainGit s) (GetDefaultBranch url)
  else ApiGetDefaultBranch (authToken s) (repositoryOwner s) (repositoryName s).

(** [x] is a fetch of the repository with a refspec computed for the ref [r]
    and the commit of the settings. *)
Definition fetchFor (env : Env) (s : IGitSourceSettings) (r : string) (x : Entry)
  : Prop :=
  exists rs d, fst x = Git (mainGit s) (Fetch rs d) /\
    (getRefSpec env r (commit s) = Ok rs
     \/ getRefSpecForAllHistory env r (commit s) = Ok rs).

(** The lookup was made: it threw, or its value became [settings.ref] and
    every fetch that follows is for that value. *)
Definition lookedUp (env : Env) (s : IGitSourceSettings) (url : string)
  (rest : Log) (s' : IGitSourceSettings) : Prop :=
  (exists e, rest = [(lookupCall s url, Throw e)] /\ ref s' = ref s)
  \/ (exists v fetches,
        rest = (lookupCall s url, Ok (VString v)) :: fetches
        /\ ref s' = v /\ Forall (fetchFor env s v) fetches).

(** No lookup: [settings.ref] is unchanged and the fetches are for it. *)
Definition keptRef (env : Env) (s : IGitSourceSettings) (rest : Log)
  (s' : IGitSourceSettings) : Prop :=
  ref s' = ref s /\ Forall (fetchFor env s (ref s)) rest.

(** What follows a successful [configureAuth] among the calls of
    [resolveScope]; [s'] are the settings at the end of the call. *)
Definition resolution (env : Env) (s : IGitSourceSettings) (rest : Log)
  (s' : IGitSourceSettings) : Prop :=
  exists url, getFetchUrl env s = Ok url /\
  if negb (truthy (ref s)) && negb (truthy (commit s))
  then lookedUp env s url rest s'
  else if truthy (ref s)
       then exists r rest',
              rest = (Git (mainGit s) (RemoteBranchExists (ref s)), r) :: rest' /\
              match r with
              | Ok (VBool true) => keptRef env s rest' s'
              | Ok (VBool false) => lookedUp env s url rest' s'
              | Ok _ => False
              | Throw _ => rest' = [] /\ ref s' = ref s
              end
       else keptRef env s rest s'.

(** A repository where the requested ref is not a branch of the remote. *)
Definition noBranchYes (c : Call) : bool :=
  match c with
  | FileExistsSync _ | DirectoryExistsSync _ => false
  | Git _ (RemoteBranchExists _) => false
  | _ => true
  end.

Definition tagEnv : Env := scripted never noBranchYes demoText demoItems.

Definition tagSettings : IGitSourceSettings :=
  {| repositoryPath := "/work/repo";
     repositoryOwner := "octo";
     repositoryName := "demo";
     ref := "refs/tags/v1.2.3";
     commit := "";
     clean := true;
     fetchDepth := 1;
     lfs := false;
     submodules := false;
     nestedSubmodules := false;
     submodulesRemoteBranch := "";
     authToken := "token";
     sshKey := "";
     persistCredentials := false |}.

Definition defaultSettings : IGitSourceSettings :=
  {| repositoryPath := "/work/repo";
     repositoryOwner := "octo";
     repositoryName := "demo";
     ref := "";
     commit := "";
     clean := true;
     fetchDepth := 0;
     lfs := false;
     submodules := false;
     nestedSubmodules := false;
     submodulesRemoteBranch := "";
     authToken := "token";
     sshKey := "";
     persistCredentials := false |}.

(** The ref moves between the fetch of all history and the check. *)
Definition movedYes (c : Call) : bool :=
  match c with
  | FileExistsSync _ | DirectoryExistsSync _ => false
  | TestRef _ _ _ => false
  | _ => true
  end.

Definition movedEnv : Env := scripted never movedYes demoText demoItems.

(** The fetches of a full-history acquisition ([fetchDepth <= 0]), with the
    check that follows the first one: [p] are the calls of [fetchScope],
    [s'] the settings at the end of the call and [out] its outcome. *)
Definition fullHistoryFetch (env : Env) (s s' : IGitSourceSettings) (p : Log)
  (out : Outcome unit) : Prop :=
  let g := mainGit s in
  let r := ref s' in
  let c := commit s in
  p = [] \/
  exists all, getRefSpecForAllHistory env r c = Ok all /\
    let blanket := Git g (Fetch all None) in
    ((exists e, p = [(blanket, Throw e)] /\ exists e', out = Throw e')
     \/ (exists e, p = [(blanket, Ok VUnit); (TestRef g r c, Throw e)]
                   /\ exists e', out = Throw e')
     \/ p = [(blanket, Ok VUnit); (TestRef g r c, Ok (VBool true))]
     \/ (exists e, getRefSpec env r c = Throw e
                   /\ p = [(blanket, Ok VUnit); (TestRef g r c, Ok (VBool false))]
                   /\ exists e', out = Throw e')
     \/ (exists targeted x, getRefSpec env r c = Ok targeted
           /\ p = [(blanket, Ok VUnit); (TestRef g r c, Ok (VBool false));
                   (Git g (Fetch targeted None), x)])).

(** The fetch of a shallow acquisition ([fetchDepth > 0]). *)
Definition shallowFetch (env : Env) (s s' : IGitSourceSettings) (p : Log) : Prop :=
  p = [] \/
  exists targeted x, getRefSpec env (ref s') (commit s) = Ok targeted
    /\ p = [(Git (mainGit s) (Fetch targeted (Some (fetchDepth s))), x)].

(** ** Submodules *)

Definition foreachCall (s : IGitSourceSettings) : Call :=
  Git (mainGit s)
    (SubmoduleForeach "git config --local gc.auto 0" (nestedSubmodules s)).

(** [configureSubmoduleAuth] and the call that precedes the decision to
    invoke it. *)
Definition submoduleAuthScope (s : IGitSourceSettings) (c : Call) : bool :=
  match c with
  | ConfigureSubmoduleAuth => true
  | Git git (SubmoduleForeach _ _) => onRoot s git
  | _ => false
  end.

(** The submodule operations: the submodule commands of the repository,
    [configureSubmoduleAuth], and every call that concerns a command manager
    other than the one of the repository. *)
Definition isSubmoduleOp (s : IGitSourceSettings) (c : Call) : bool :=
  match c with
  | ConfigureSubmoduleAuth => true
  | Git git (SubmoduleSync _) | Git git (SubmoduleUpdate _ _)
  | Git git (SubmoduleForeach _ _) | Git git GetSubmodulesList => true
  | Git git _ => negb (onRoot s git)
  | CreateCommandManager wd _ => negb (String.eqb wd (repositoryPath s))
  | GetCheckoutInfo git _ _ | TestRef git _ _ => negb (onRoot s git)
  | _ => false
  end.

Definition isGlobalAuth (c : Call) : bool :=
  match c with ConfigureGlobalAuth | RemoveGlobalAuth => true | _ => false end.

Definition isMainCheckout (s : IGitSourceSettings) (c : Call) : bool :=
  match c with
  | Git git (Checkout _ _) => onRoot s git
  | _ => false
  end.

(** The checkout of the repository, the global credentials and the
    submodule operations. *)
Definition submoduleScope (s : IGitSourceSettings) (c : Call) : bool :=
  match c with
  | ConfigureGlobalAuth | RemoveGlobalAuth => true
  | Git _ (Checkout _ _) => true
  | _ => isSubmoduleOp s c
  end.

(** A submodule operation, with its result. *)
Definition submoduleWork (s : IGitSourceSettings) (x : Entry) : Prop :=
  isSubmoduleOp s (fst x) = true /\ isGlobalAuth (fst x) = false.

(** The submodule phase: [configureGlobalAuth], the submodule operations,
    [removeGlobalAuth]. *)
Definition globalAuthBracket (s : IGitSourceSettings) (phase : Log) : Prop :=
  exists r1 work r2,
    phase = (ConfigureGlobalAuth, r1) :: work ++ [(RemoveGlobalAuth, r2)]
    /\ Forall (submoduleWork s) work
    /\ (forall e, r1 = Throw e -> work = []).

Definition recursiveSettings : IGitSourceSettings :=
  {| repositoryPath := "/work/repo";
     repositoryOwner := "octo";
     repositoryName := "demo";
     ref := "refs/heads/dev";
     commit := "";
     clean := true;
     fetchDepth := 1;
     lfs := false;
     submodules := true;
     nestedSubmodules := true;
     submodulesRemoteBranch := "release";
     authToken := "token";
     sshKey := "";
     persistCredentials := false |}.

(** [configureGlobalAuth] throws. *)
Definition isConfigureGlobalAuth (c : Call) : bool :=
  match c with ConfigureGlobalAuth => true | _ => false end.

Definition brokenGlobalAuthEnv : Env :=
  scripted isConfigureGlobalAuth freshYes demoText demoItems.

(** ** The remote branch of the submodules *)

(** The list of submodules, and every call that concerns the command manager
    of a submodule. *)
Definition overrideScope (s : IGitSourceSettings) (c : Call) : bool :=
  match c with
  | Git git GetSubmodulesList => true
  | Git git _ => negb (onRoot s git)
  | CreateCommandManager wd _ => negb (String.eqb wd (repositoryPath s))
  | GetCheckoutInfo git _ _ => negb (onRoot s git)
  | _ => false
  end.

Definition subGit (s : IGitSourceSettings) (sub : string) : IGitCommandManager :=
  mkGit (submodulePath s sub) (lfs s).

Definition createSub (s : IGitSourceSettings) (sub : string) : Call :=
  CreateCommandManager (submodulePath s sub) (lfs s).

Definition exposes (s : IGitSourceSettings) (sub : string) : Call :=
  Git (subGit s sub) (RemoteBranchExists (submodulesRemoteBranch s)).

(** The submodule is left alone: no command manager for it, or its remote
    does not have the branch. *)
Definition skipped (s : IGitSourceSettings) (sub : string) (b : Log) : Prop :=
  (lfs s = false /\ exists e, b = [(createSub s sub, Throw e)])
  \/ b = [(createSub s sub, Ok VUnit); (exposes s sub, Ok (VBool false))].

(** The calls that move a submodule to the branch, all successful. *)
Definition updateEntries (s : IGitSourceSettings) (sub : string)
  (ci : ICheckoutInfo) (refSpec : list string) : Log :=
  let g := subGit s sub in
  (if lfs s then [(Git g LfsInstall, Ok VUnit)] else [])
  ++ (if 0 <? fetchDepth s
      then [(Git g (Fetch refSpec (Some (fetchDepth s))), Ok VUnit)]
      else [])
  ++ [(GetCheckoutInfo g (submodulesRemoteBranch s) "", Ok (VCheckoutInfo ci))]
  ++ (if lfs s then [(Git g (LfsFetch (lfsFetchTarget ci)), Ok VUnit)] else [])
  ++ [(Git g (Checkout (checkoutRef ci) (startPoint ci)), Ok VUnit)].

(** The remote of the submodule has the branch: it is fetched when
    [fetchDepth > 0], resolved and checked out. *)
Definition updated (env : Env) (s : IGitSourceSettings) (sub : string) (b : Log)
  : Prop :=
  exists ci refSpec,
    (0 < fetchDepth s -> getRefSpec env (submodulesRemoteBranch s) "" = Ok refSpec)
    /\ b = (createSub s sub, Ok VUnit) :: (exposes s sub, Ok (VBool true))
           :: updateEntries s sub ci refSpec.

Definition touches (s : IGitSourceSettings) (sub : string) (x : Entry) : Prop :=
  match fst x with
  | Git g _ | GetCheckoutInfo g _ _ => g = subGit s sub
  | _ => False
  end.

(** An error ends the loop at this submodule. *)
Definition aborted (s : IGitSourceSettings) (sub : string) (b : Log) : Prop :=
  (lfs s = true /\ exists e, b = [(createSub s sub, Throw e)])
  \/ (exists e, b = [(createSub s sub, Ok VUnit); (exposes s sub, Throw e)])
  \/ (exists rest,
        b = (createSub s sub, Ok VUnit) :: (exposes s sub, Ok (VBool true)) :: rest
        /\ Forall (touches s sub) rest).

(** The calls of the loop over the submodules [l]. *)
Fixpoint overrideRun (env : Env) (s : IGitSourceSettings) (l : list string)
  (p : Log) : Prop :=
  match l with
  | [] => p = []
  | sub :: rest =>
      exists b p', p = b ++ p' /\
        (((skipped s sub b \/ updated env s sub b) /\ overrideRun env s rest p')
         \/ (aborted s sub b /\ p' = []))
  end.

(** The second submodule does not have the branch. *)
Definition partialYes (c : Call) : bool :=
  match c with
  | FileExistsSync _ | DirectoryExistsSync _ => false
  | Git g (RemoteBranchExists _) =>
      negb (String.eqb (workingDirectory g) "/work/repo/libs/b")
  | _ => true
  end.

Definition partialEnv : Env := scripted never partialYes demoText demoItems.

(** ** [cleanup] *)

(** The path [path.join(repositoryPath, '.git', 'config')], joined one
    segment at a time. *)
Definition gitConfigPath (env : Env) (path : string) : string :=
  pathJoin env (pathJoin env path ".git") "config".

(** [cleanup], lines 269-288.  The argument is named [path] here. *)
Definition cleanup (env : Env) (path : string) : M unit :=
  (* Repo exists? *)
  missing <-
    (if negb (truthy path) then ret true
     else found <- ask env (FileExistsSync (gitConfigPath env path)) ;;
          ret (negb found)) ;;
  if missing then ret tt
  else
    git <- try_catch
             (g <- createCommandManager env path false ;; ret (Some g))
             (fun _ => ret None) ;;
    match git with
    | None => ret tt
    | Some git =>
        (* Remove auth *)
        call env (CreateAuthHelper git) ;;
        call env RemoveAuth
    end.

(** Selects every call. *)
Definition anyCall (c : Call) : bool := true.

(** The calls of [cleanup] when it goes all the way, up to [removeAuth]. *)
Definition cleanupCalls (env : Env) (path : string) : Log :=
  [ (FileExistsSync (gitConfigPath env path), Ok (VBool true));
    (CreateCommandManager path false, Ok VUnit);
    (CreateAuthHelper (mkGit path false), Ok VUnit) ].

(** A repository that was checked out before, and one that was not. *)
Definition yes (c : Call) : bool := true.

Definition checkedOutEnv : Env := scripted never yes demoText demoItems.

(** Git is missing when [cleanup] runs. *)
Definition gitGoneEnv : Env := scripted isCreate yes demoText demoItems.

(** ** Further selections of calls *)

(** The global credentials and the submodule operations. *)
Definition submoduleCall (s : IGitSourceSettings) (c : Call) : bool :=
  match c with
  | ConfigureGlobalAuth | RemoveGlobalAuth => true
  | _ => isSubmoduleOp s c
  end.

(** The LFS commands, on any command manager. *)
Definition isLfs (c : Call) : bool :=
  match c with
  | Git _ LfsInstall | Git _ (LfsFetch _) => true
  | _ => false
  end.

(** Checking for a directory, creating the directory, creating the command
    manager of the repository, preparing an existing directory. *)
Definition directoryScope (s : IGitSourceSettings) (c : Call) : bool :=
  match c with
  | DirectoryExistsSync _ => true
  | MkdirP _ | PrepareExistingDirectory _ _ _ _ _ => true
  | CreateCommandManager wd _ => String.eqb wd (repositoryPath s)
  | _ => false
  end.

(** What [prepareExistingDirectory] is given as command manager, by the
    result of the creation. *)
Definition managerAfter (s : IGitSourceSettings) (r : Outcome Value)
  : option IGitCommandManager :=
  match r with Ok _ => Some (mainGit s) | Throw _ => None end.

(** The directory of the repository did not exist: it is created and never
    prepared. *)
Definition freshDirectory (s : IGitSourceSettings) (p : Log) : Prop :=
  (exists e, p = [(MkdirP (repositoryPath s), Throw e)])
  \/ (exists r, p = [(MkdirP (repositoryPath s), Ok VUnit); (createMain s, r)]).

(** The directory existed: it is prepared, with the command manager or
    without one, unless the missing manager is fatal. *)
Definition existingDirectory (env : Env) (s : IGitSourceSettings) (p : Log)
  : Prop :=
  (exists e, lfs s = true /\ p = [(createMain s, Throw e)])
  \/ (exists url r r',
        getFetchUrl env s = Ok url
        /\ (lfs s = true -> r = Ok VUnit)
        /\ p = [(createMain s, r);
                (PrepareExistingDirectory (managerAfter s r) (repositoryPath s)
                   url (clean s) (ref s), r')]).

(** The check for a conflicting file and its removal. *)
Definition conflictScope (c : Call) : bool :=
  match c with
  | FileExistsSync _ | RmRF _ => true
  | _ => false
  end.

(** The checks for directories and the initialization of the repository. *)
Definition initScope (c : Call) : bool :=
  match c with
  | DirectoryExistsSync _ => true
  | Git _ Init | Git _ (RemoteAdd _ _) => true
  | _ => false
  end.

(** Disabling automatic garbage collection, and the call after it. *)
Definition gcScope (c : Call) : bool :=
  match c with
  | Git _ TryDisableAutomaticGarbageCollection => true
  | CreateAuthHelper _ => true
  | _ => false
  end.



(** The commit information and its check. *)
Definition commitScope (c : Call) : bool :=
  match c with
  | Git _ (Log1 _) => true
  | CheckCommitInfo _ _ _ _ _ _ => true
  | _ => false
  end.

Definition commitCheck (s s' : IGitSourceSettings) (info : string) : Call :=
  CheckCommitInfo (authToken s) info (repositoryOwner s) (repositoryName s)
    (ref s') (commit s).

(** [configureAuth] and the calls of [commitScope]. *)
Definition verifiedScope (c : Call) : bool :=
  match c with
  | ConfigureAuth => true
  | _ => commitScope c
  end.

(** The two teardown calls. *)
Definition teardownScope (c : Call) : bool :=
  match c with
  | RemoveGlobalAuth | RemoveAuth => true
  | _ => false
  end.

(** Creating the command manager of the repository, saving the path for the
    POST action, downloading the archive. *)
Definition stateScope (s : IGitSourceSettings) (c : Call) : bool :=
  match c with
  | CreateCommandManager wd _ => String.eqb wd (repositoryPath s)
  | SetRepositoryPath _ => true
  | DownloadRepository _ _ _ _ _ _ => true
  | _ => false
  end.


(** LFS installation and the fetches of the repository. *)
Definition lfsOrderScope (s : IGitSourceSettings) (c : Call) : bool :=
  match c with
  | Git git LfsInstall => onRoot s git
  | Git git (Fetch _ _) => onRoot s git
  | _ => false
  end.

Definition isFetchEntry (x : Entry) : Prop :=
  exists g rs d, fst x = Git g (Fetch rs d).

(** Sample runs. *)
Definition isRemoveAuthCall (c : Call) : bool :=
  match c with RemoveAuth => true | _ => false end.

Definition brokenTeardownEnv : Env :=
  scripted isRemoveAuthCall freshYes demoText demoItems.

Definition isRemoveGlobalAuthCall (c : Call) : bool :=
  match c with RemoveGlobalAuth => true | _ => false end.

Definition brokenGlobalTeardownEnv : Env :=
  scripted isRemoveGlobalAuthCall freshYes demoText demoItems.

Definition lfsRecursiveSettings : IGitSourceSettings :=
  {| repositoryPath := "/work/repo";
     repositoryOwner := "octo";
     repositoryName := "demo";
     ref := "refs/heads/dev";
     commit := "";
     clean := true;
     fetchDepth := 0;
     lfs := true;
     submodules := true;
     nestedSubmodules := true;
     submodulesRemoteBranch := "release";
     authToken := "token";
     sshKey := "";
     persistCredentials := false |}.


(** ** Calls that complete normally *)

(** [configureAuth], with the calls of [submoduleAuthScope]. *)
Definition reachSubmoduleAuthScope (s : IGitSourceSettings) (c : Call) : bool :=
  match c with
  | ConfigureAuth => true
  | _ => submoduleAuthScope s c
  end.

(** [configureAuth], with the calls of [overrideScope]. *)
Definition reachOverrideScope (s : IGitSourceSettings) (c : Call) : bool :=
  match c with
  | ConfigureAuth => true
  | _ => overrideScope s c
  end.

(** The calls of a loop over the submodules [l] that went through the whole
    list: every submodule is left alone or moved to the branch. *)
Fixpoint overrideComplete (env : Env) (s : IGitSourceSettings) (l : list string)
  (p : Log) : Prop :=
  match l with
  | [] => p = []
  | sub :: rest =>
      exists b p', p = b ++ p'
        /\ (skipped s sub b \/ updated env s sub b)
        /\ overrideComplete env s rest p'
  end.

(** No command manager can be created for the first submodule; the remote of
    every submodule has the branch. *)
Definition isCreateFirstSubmodule (c : Call) : bool :=
  match c with
  | CreateCommandManager wd _ => String.eqb wd "/work/repo/libs/a"
  | _ => false
  end.

Definition firstSubmoduleBrokenEnv : Env :=
  scripted isCreateFirstSubmodule freshYes demoText demoItems.

(** ** The directory of the repository *)

(** The later check for the [.git] directory, made only with the command
    manager of the repository. *)
Definition laterProbe (env : Env) (s : IGitSourceSettings) (q tail : Log)
  : Prop :=
  tail = []
  \/ (In (created s) q
      /\ exists r,
           tail = [(DirectoryExistsSync (pathJoin env (repositoryPath s) ".git"),
                    r)]).
(** ** Reasoning about runs *)

Section Logic.

Context {A B : Type}.
Variable rel : Call -> bool.

Lemma proj_app (l1 l2 : Log) : proj rel (l1 ++ l2) = proj rel l1 ++ proj rel l2.
Proof. apply filter_app. Qed.

Lemma spec_mono (m : M A) s (P P' : Outcome A -> IGitSourceSettings -> Log -> Prop) :
  spec rel m s P -> (forall r s' p, P r s' p -> P' r s' p) -> spec rel m s P'.
Proof. intros H HP h. apply HP, H. Qed.

Lemma spec_ret (a : A) s (P : Outcome A -> IGitSourceSettings -> Log -> Prop) :
  P (Ok a) s [] -> spec rel (ret a) s P.
Proof. intros H h. exact H. Qed.

Lemma spec_throw e s (P : Outcome A -> IGitSourceSettings -> Log -> Prop) :
  P (Throw e) s [] -> spec rel (throw e) s P.
Proof. intros H h. exact H. Qed.

Lemma spec_lift (o : Outcome A) s (P : Outcome A -> IGitSourceSettings -> Log -> Prop) :
  P o s [] -> spec rel (lift o) s P.
Proof. intros H h. exact H. Qed.

Lemma spec_invoke (inj : A -> Value) answer c s
  (P : Outcome A -> IGitSourceSettings -> Log -> Prop) :
  (forall r, P r s (proj rel [(c, map_outcome inj r)])) ->
  spec rel (invoke inj answer c) s P.
Proof. intros H h. apply H. Qed.

Lemma spec_bind (m : M A) (f : A -> M B) s
  (P : Outcome B -> IGitSourceSettings -> Log -> Prop) :
  spec rel m s (fun r s1 p1 =>
    match r with
    | Ok a => spec rel (f a) s1 (fun r2 s2 p2 => P r2 s2 (p1 ++ p2))
    | Throw e => P (Throw e) s1 p1
    end) ->
  spec rel (bind m f) s P.
Proof.
  intros H h. specialize (H h). unfold bind.
  destruct (m s h) as [[[a|e] s1] d1];
    unfold outcome_of, settings_of, log_of in *; cbn [fst snd] in *.
  - specialize (H (h ++ d1)).
    destruct (f a s1 (h ++ d1)) as [[r2 s2] d2];
      unfold outcome_of, settings_of, log_of in *; cbn [fst snd] in *.
    now rewrite proj_app.
  - exact H.
Qed.

Lemma spec_settings (f : IGitSourceSettings -> M B) s
  (P : Outcome B -> IGitSourceSettings -> Log -> Prop) :
  spec rel (f s) s P -> spec rel (bind settings f) s P.
Proof.
  intros H h. specialize (H h). unfold bind, settings.
  rewrite app_nil_r. destruct (f s s h) as [[r2 s2] d2]. exact H.
Qed.

Lemma spec_assign_ref v s (P : Outcome unit -> IGitSourceSettings -> Log -> Prop) :
  P (Ok tt) (set_ref s v) [] -> spec rel (assign_ref v) s P.
Proof. intros H h. exact H. Qed.

Lemma spec_try_finally (body : M A) (fin : M unit) s
  (P : Outcome A -> IGitSourceSettings -> Log -> Prop) :
  spec rel body s (fun r1 s1 p1 =>
    spec rel fin s1 (fun r2 s2 p2 => P (surfaced r1 r2) s2 (p1 ++ p2))) ->
  spec rel (try_finally body fin) s P.
Proof.
  intros H h. specialize (H h). unfold try_finally.
  destruct (body s h) as [[r1 s1] d1];
    unfold outcome_of, settings_of, log_of in *; cbn [fst snd] in *.
  specialize (H (h ++ d1)).
  destruct (fin s1 (h ++ d1)) as [[[u|e] s2] d2];
    unfold outcome_of, settings_of, log_of in *; cbn [fst snd] in *;
    now rewrite proj_app.
Qed.

Lemma spec_try_catch (body : M A) (handler : string -> M A) s
  (P : Outcome A -> IGitSourceSettings -> Log -> Prop) :
  spec rel body s (fun r1 s1 p1 =>
    match r1 with
    | Ok a => P (Ok a) s1 p1
    | Throw e => spec rel (handler e) s1 (fun r2 s2 p2 => P r2 s2 (p1 ++ p2))
    end) ->
  spec rel (try_catch body handler) s P.
Proof.
  intros H h. specialize (H h). unfold try_catch.
  destruct (body s h) as [[[a|e] s1] d1];
    unfold outcome_of, settings_of, log_of in *; cbn [fst snd] in *.
  - exact H.
  - specialize (H (h ++ d1)).
    destruct (handler e s1 (h ++ d1)) as [[r2 s2] d2];
      unfold outcome_of, settings_of, log_of in *; cbn [fst snd] in *.
    now rewrite proj_app.
Qed.

(** A silent computation can be stepped over. *)
Lemma spec_silent (m : M A) s (P : Outcome A -> IGitSourceSettings -> Log -> Prop) :
  silent rel m s -> (forall r, P r s []) -> spec rel m s P.
Proof.
  intros H HP. eapply spec_mono; [exact H|].
  intros r s' p [-> ->]. apply HP.
Qed.

Lemma spec_bind_silent (m : M A) (f : A -> M B) s
  (P : Outcome B -> IGitSourceSettings -> Log -> Prop) :
  silent rel m s ->
  (forall e, P (Throw e) s []) ->
  (forall a, spec rel (f a) s P) ->
  spec rel (bind m f) s P.
Proof.
  intros Hm He Hf. apply spec_bind. apply spec_silent; [exact Hm|].
  intros [a|e]; [|apply He]. exact (Hf a).
Qed.

End Logic.

Section Silence.

Variable rel : Call -> bool.

Lemma silent_ret {A} (a : A) s : silent rel (ret a) s.
Proof. apply spec_ret. auto. Qed.

Lemma silent_throw {A} e s : silent rel (@throw A e) s.
Proof. apply spec_throw. auto. Qed.

Lemma silent_lift {A} (o : Outcome A) s : silent rel (lift o) s.
Proof. apply spec_lift. auto. Qed.

Lemma silent_invoke {T} (inj : T -> Value) answer c s :
  rel c = false -> silent rel (invoke inj answer c) s.
Proof.
  intros H. apply spec_invoke. intros r. split; [reflexivity|].
  unfold proj. cbn [filter fst]. now rewrite H.
Qed.

Lemma silent_bind {A B} (m : M A) (f : A -> M B) s :
  silent rel m s -> (forall a, silent rel (f a) s) -> silent rel (bind m f) s.
Proof.
  intros Hm Hf. apply spec_bind_silent; auto.
Qed.

Lemma silent_settings {B} (f : IGitSourceSettings -> M B) s :
  silent rel (f s) s -> silent rel (bind settings f) s.
Proof. apply spec_settings. Qed.

Lemma silent_try_finally {A} (body : M A) (fin : M unit) s :
  silent rel body s -> silent rel fin s -> silent rel (try_finally body fin) s.
Proof.
  intros Hb Hf. apply spec_try_finally. apply spec_silent; [exact Hb|].
  intros r1. eapply spec_mono; [exact Hf|]. cbn. auto.
Qed.

Lemma silent_try_catch {A} (body : M A) (handler : string -> M A) s :
  silent rel body s -> (forall e, silent rel (handler e) s) ->
  silent rel (try_catch body handler) s.
Proof.
  intros Hb Hh. apply spec_try_catch. apply spec_silent; [exact Hb|].
  intros [a|e]; [auto|]. eapply spec_mono; [apply Hh|]. cbn. auto.
Qed.

Lemma silent_when b (m : M unit) s :
  (b = true -> silent rel m s) -> silent rel (when b m) s.
Proof. destruct b; cbn; intros H; [auto | apply silent_ret]. Qed.

Lemma silent_forEach {A} (l : list A) (body : A -> M unit) s :
  (forall x, silent rel (body x) s) -> silent rel (forEach l body) s.
Proof.
  intros H. induction l as [|x l IH]; cbn.
  - apply silent_ret.
  - apply silent_bind; auto.
Qed.

End Silence.

(** ** Computations whose selected calls all satisfy a property *)

Lemma set_ref_same s : set_ref s (ref s) = s.
Proof. destruct s; reflexivity. Qed.

Section Emission.

Variable rel : Call -> bool.
Variable Q : Entry -> Prop.

Lemma emits_ret {A} (a : A) s : emits rel Q (ret a) s.
Proof. apply spec_ret. split; [exists (ref s); now rewrite set_ref_same | constructor]. Qed.

Lemma emits_throw {A} e s : emits rel Q (@throw A e) s.
Proof. apply spec_throw. split; [exists (ref s); now rewrite set_ref_same | constructor]. Qed.

Lemma emits_lift {A} (o : Outcome A) s : emits rel Q (lift o) s.
Proof. apply spec_lift. split; [exists (ref s); now rewrite set_ref_same | constructor]. Qed.

Lemma emits_assign_ref v s : emits rel Q (assign_ref v) s.
Proof. apply spec_assign_ref. split; [now exists v | constructor]. Qed.

Lemma emits_invoke {T} (inj : T -> Value) answer c s :
  (rel c = true -> forall r, Q (c, r)) -> emits rel Q (invoke inj answer c) s.
Proof.
  intros H. apply spec_invoke. intros r.
  split; [exists (ref s); now rewrite set_ref_same|].
  unfold proj. cbn [filter fst]. destruct (rel c); [|constructor].
  constructor; [now apply H | constructor].
Qed.

Lemma emits_bind {A B} (m : M A) (f : A -> M B) s :
  emits rel Q m s -> (forall a v, emits rel Q (f a) (set_ref s v)) ->
  emits rel Q (bind m f) s.
Proof.
  intros Hm Hf. apply spec_bind. eapply spec_mono; [exact Hm|].
  intros [a|e] s1 p1 [[v ->] Hp1].
  - eapply spec_mono; [apply Hf|]. intros r2 s2 p2 [[w ->] Hp2].
    split; [now exists w | now apply Forall_app].
  - split; [now exists v | assumption].
Qed.

Lemma emits_settings {B} (f : IGitSourceSettings -> M B) s :
  emits rel Q (f s) s -> emits rel Q (bind settings f) s.
Proof. apply spec_settings. Qed.

Lemma emits_try_finally {A} (body : M A) (fin : M unit) s :
  emits rel Q body s -> (forall v, emits rel Q fin (set_ref s v)) ->
  emits rel Q (try_finally body fin) s.
Proof.
  intros Hb Hf. apply spec_try_finally. eapply spec_mono; [exact Hb|].
  intros r1 s1 p1 [[v ->] Hp1].
  eapply spec_mono; [apply Hf|]. intros r2 s2 p2 [[w ->] Hp2].
  split; [now exists w | now apply Forall_app].
Qed.

Lemma emits_try_catch {A} (body : M A) (handler : string -> M A) s :
  emits rel Q body s -> (forall e v, emits rel Q (handler e) (set_ref s v)) ->
  emits rel Q (try_catch body handler) s.
Proof.
  intros Hb Hh. apply spec_try_catch. eapply spec_mono; [exact Hb|].
  intros [a|e] s1 p1 [[v ->] Hp1].
  - split; [now exists v | assumption].
  - eapply spec_mono; [apply Hh|]. intros r2 s2 p2 [[w ->] Hp2].
    split; [now exists w | now apply Forall_app].
Qed.

Lemma emits_when b (m : M unit) s :
  (b = true -> emits rel Q m s) -> emits rel Q (when b m) s.
Proof. destruct b; cbn; intros H; [auto | apply emits_ret]. Qed.

Lemma emits_forEach {A} (l : list A) (body : A -> M unit) s :
  (forall x v, emits rel Q (body x) (set_ref s v)) ->
  emits rel Q (forEach l body) s.
Proof.
  intros H. revert s H. induction l as [|x l IH]; intros s H; cbn.
  - apply emits_ret.
  - apply emits_bind.
    + rewrite <- (set_ref_same s). apply H.
    + intros _ v. apply IH. intros y w. apply H.
Qed.

Lemma emits_invoke_off {T} (inj : T -> Value) answer c s :
  rel c = false -> emits rel Q (invoke inj answer c) s.
Proof. intros H. apply emits_invoke. congruence. Qed.

(** Stepping over a computation known by what it emits. *)
Lemma spec_emits {A} (m : M A) s
  (P : Outcome A -> IGitSourceSettings -> Log -> Prop) :
  emits rel Q m s ->
  (forall r v p, Forall Q p -> P r (set_ref s v) p) ->
  spec rel m s P.
Proof.
  intros Hm HP. eapply spec_mono; [exact Hm|].
  intros r s' p [[v ->] Hp]. now apply HP.
Qed.

End Emission.

(** A computation that makes no selected call but may assign
    [settings.ref]. *)
Lemma spec_bind_quiet {A B} rel (m : M A) (f : A -> M B) s
  (P : Outcome B -> IGitSourceSettings -> Log -> Prop) :
  emits rel (fun _ => False) m s ->
  (forall e v, P (Throw e) (set_ref s v) []) ->
  (forall a v, spec rel (f a) (set_ref s v) P) ->
  spec rel (bind m f) s P.
Proof.
  intros Hm He Hf. apply spec_bind. eapply spec_mono; [exact Hm|].
  intros r s1 p1 [[v ->] Hp1].
  assert (p1 = []) as -> by (destruct Hp1 as [|x l []]; reflexivity).
  destruct r as [a|e]; [|apply He].
  eapply spec_mono; [apply Hf|]. auto.
Qed.


(** ** Stepping through the program *)

(** The path of a submodule is never the path of the repository. *)
Lemma append_fresh (a b : string) c : (a ++ String c b)%string <> a.
Proof.
  induction a as [|x a IH]; cbn.
  - discriminate.
  - intros H. injection H as H. exact (IH H).
Qed.

Lemma subpath_fresh (root sub : string) :
  String.eqb (root ++ "/" ++ sub) root = false.
Proof. apply String.eqb_neq. apply append_fresh. Qed.

(** Shows that a call made on a submodule, or one of another kind, is not a
    call selected by path. *)
Ltac off_root :=
  cbn [submodulePath set_ref repositoryPath];
  first [reflexivity | apply subpath_fresh].

Lemma proj_nil_not_in rel (l : Log) c :
  proj rel l = [] -> rel c = true -> ~ In c (calls l).
Proof.
  intros Hp Hc Hin. unfold calls in Hin. apply in_map_iff in Hin.
  destruct Hin as [[c' r] [Heq Hin]]. cbn in Heq. subst c'.
  assert (Hf : In (c, r) (proj rel l)) by (apply filter_In; auto).
  rewrite Hp in Hf. exact Hf.
Qed.

Lemma in_calls_proj rel (l : Log) c :
  In c (calls l) -> rel c = true -> exists r, In (c, r) (proj rel l).
Proof.
  unfold calls. intros Hin Hc. apply in_map_iff in Hin.
  destruct Hin as [[c' r] [Heq Hin]]. cbn in Heq. subst c'.
  exists r. apply filter_In. auto.
Qed.

Lemma in_proj rel (l : Log) x : In x l -> rel (fst x) = true -> In x (proj rel l).
Proof. intros Hin Hr. apply filter_In. auto. Qed.

(** A selection within a selection. *)
Lemma proj_proj (rel rel' : Call -> bool) (l : Log) :
  (forall c, rel c = true -> rel' c = true) ->
  proj rel (proj rel' l) = proj rel l.
Proof.
  intros Hsub. unfold proj. induction l as [|x l IH]; cbn [filter].
  - reflexivity.
  - destruct (rel' (fst x)) eqn:H'; destruct (rel (fst x)) eqn:H;
      cbn [filter]; rewrite ?H, IH; try reflexivity.
    apply Hsub in H. congruence.
Qed.

(** [getGitCommandManager], by the outcome of the creation. *)
Lemma spec_getGitCommandManager env rel wd withLfs s
  (P : Outcome (option IGitCommandManager) -> IGitSourceSettings -> Log -> Prop) :
  let c := CreateCommandManager wd withLfs in
  P (Ok (Some (mkGit wd withLfs))) s (proj rel [(c, Ok VUnit)]) ->
  (forall e, withLfs = true -> P (Throw e) s (proj rel [(c, Throw e)])) ->
  (forall e, withLfs = false -> P (Ok None) s (proj rel [(c, Throw e)])) ->
  spec rel (getGitCommandManager env wd withLfs) s P.
Proof.
  intros c Hok Hlfs Hnone h.
  unfold getGitCommandManager, try_catch, createCommandManager, bind, call,
    invoke, ret, throw, outcome_of, settings_of, log_of.
  destruct (answer_unit env h (CreateCommandManager wd withLfs)) as [u|e];
    cbn [fst snd map_outcome app].
  - exact Hok.
  - destruct withLfs; cbn [fst snd app]; auto.
Qed.

(** Binding the result of [getGitCommandManager]: the manager, when there
    is one, is the one created for the path. *)
Lemma silent_bind_getGitCommandManager {B} env rel wd withLfs
  (f : option IGitCommandManager -> M B) s :
  rel (CreateCommandManager wd withLfs) = false ->
  silent rel (f (Some (mkGit wd withLfs))) s ->
  silent rel (f None) s ->
  silent rel (bind (getGitCommandManager env wd withLfs) f) s.
Proof.
  intros Hc Hsome Hnone. apply spec_bind. apply spec_getGitCommandManager;
    cbv zeta; unfold proj; cbn [filter fst]; rewrite Hc.
  - eapply spec_mono; [exact Hsome|]. auto.
  - intros; auto.
  - intros. eapply spec_mono; [exact Hnone|]. auto.
Qed.

Lemma emits_bind_getGitCommandManager {B} env rel Q wd withLfs
  (f : option IGitCommandManager -> M B) s :
  (rel (CreateCommandManager wd withLfs) = true ->
   forall r, Q (CreateCommandManager wd withLfs, r)) ->
  (forall v, emits rel Q (f (Some (mkGit wd withLfs))) (set_ref s v)) ->
  (forall v, emits rel Q (f None) (set_ref s v)) ->
  emits rel Q (bind (getGitCommandManager env wd withLfs) f) s.
Proof.
  intros Hc Hsome Hnone.
  assert (Hq : forall r, Forall Q (proj rel [(CreateCommandManager wd withLfs, r)])).
  { intros r. unfold proj. cbn [filter fst].
    destruct (rel (CreateCommandManager wd withLfs)); repeat constructor; auto. }
  pose proof (Hsome (ref s)) as Hs. pose proof (Hnone (ref s)) as Hn.
  rewrite set_ref_same in Hs, Hn.
  apply spec_bind. apply spec_getGitCommandManager; cbv zeta.
  - eapply spec_mono; [exact Hs|].
    intros r s' p [[w ->] Hp]. split; [now exists w|].
    apply Forall_app. split; [apply Hq | exact Hp].
  - intros e _. split; [exists (ref s); now rewrite set_ref_same | apply Hq].
  - intros e _. eapply spec_mono; [exact Hn|].
    intros r s' p [[w ->] Hp]. split; [now exists w|].
    apply Forall_app. split; [apply Hq | exact Hp].
Qed.

Ltac head_of t :=
  lazymatch t with
  | ?f _ => head_of f
  | _ => t
  end.

(** [silence side] proves that a computation is silent, following its
    structure; [side] shows that a call is not selected. *)
Ltac silence side :=
  lazymatch goal with
  | |- silent _ (ret _) _ => apply silent_ret
  | |- silent _ (throw _) _ => apply silent_throw
  | |- silent _ (lift _) _ => apply silent_lift
  | |- silent _ (invoke _ _ _) _ => apply silent_invoke; solve [side]
  | |- silent _ (bind settings _) _ => apply silent_settings; silence side
  | |- silent _ (bind (getGitCommandManager _ _ _) _) _ =>
      apply silent_bind_getGitCommandManager;
      [solve [side] | silence side | silence side]
  | |- silent _ (bind _ _) _ =>
      apply silent_bind; [silence side | intro; silence side]
  | |- silent _ (try_finally _ _) _ => apply silent_try_finally; silence side
  | |- silent _ (try_catch _ _) _ =>
      apply silent_try_catch; [silence side | intro; silence side]
  | |- silent _ (when _ _) _ => apply silent_when; intro; silence side
  | |- silent _ (forEach _ _) _ => apply silent_forEach; intro; silence side
  | |- silent _ (if ?b then _ else _) _ => destruct b; silence side
  | |- silent _ (match ?x with Some _ => _ | None => _ end) _ =>
      destruct x; silence side
  | |- silent _ ?m _ => let h := head_of m in unfold h; silence side
  end.

(** [emission off on] proves an [emits] goal following the structure of the
    computation; [off] shows that a call is not selected, [on] that a
    selected call satisfies the property. *)
Ltac emission off on :=
  cbn [set_ref repositoryPath repositoryOwner repositoryName ref
       commit clean fetchDepth lfs submodules nestedSubmodules
       submodulesRemoteBranch authToken sshKey persistCredentials];
  lazymatch goal with
  | |- emits _ _ (ret _) _ => apply emits_ret
  | |- emits _ _ (throw _) _ => apply emits_throw
  | |- emits _ _ (lift _) _ => apply emits_lift
  | |- emits _ _ (assign_ref _) _ => apply emits_assign_ref
  | |- emits _ _ (invoke _ _ _) _ =>
      first [ apply emits_invoke_off; solve [off]
            | apply emits_invoke; solve [on] ]
  | |- emits _ _ (bind settings _) _ => apply emits_settings; emission off on
  | |- emits _ _ (bind (getGitCommandManager _ _ _) _) _ =>
      apply emits_bind_getGitCommandManager;
      [ first [ let Hoff := fresh in
                intros Hoff; exfalso; apply (eq_true_false_abs _ Hoff);
                solve [off]
              | solve [on] ]
      | intros ?; emission off on
      | intros ?; emission off on ]
  | |- emits _ _ (bind _ _) _ =>
      apply emits_bind; [emission off on | intros ? ?; emission off on]
  | |- emits _ _ (try_finally _ _) _ =>
      apply emits_try_finally; [emission off on | intros ?; emission off on]
  | |- emits _ _ (try_catch _ _) _ =>
      apply emits_try_catch; [emission off on | intros ? ?; emission off on]
  | |- emits _ _ (when _ _) _ => apply emits_when; intro; emission off on
  | |- emits _ _ (forEach _ _) _ =>
      apply emits_forEach; intros ? ?; emission off on
  | |- emits _ _ (if ?b then _ else _) _ => destruct b; emission off on
  | |- emits _ _ (match ?x with Some _ => _ | None => _ end) _ =>
      destruct x; emission off on
  | |- emits _ _ ?m _ => let h := head_of m in unfold h; emission off on
  end.

(** One step of symbolic execution of a [spec] goal: what is silent is
    stepped over, also when it assigns [settings.ref]; a selected call is
    split on its outcome; [norm] tidies the goal after the step.  The
    command manager of the repository is always followed to its value. *)
Ltac spec_step side norm :=
  lazymatch goal with
  | |- spec _ (bind settings _) _ _ => apply spec_settings
  | |- spec _ (bind (lift ?o) _) _ _ =>
      apply spec_bind; apply spec_lift; destruct o eqn:?
  | |- spec _ (bind (getGitCommandManager _ _ _) _) _ _ =>
      apply spec_bind; apply spec_getGitCommandManager; [|intros ? ?|intros ? ?]
  | |- spec _ (bind _ _) _ _ =>
      first [ apply spec_silent; [solve [silence side] | intros [?|?]]
            | apply spec_bind_silent; [solve [silence side] | intro | intro]
            | apply spec_bind_quiet;
              [solve [emission side fail] | intros ? ? | intros ? ?]
            | apply spec_bind ]
  | |- spec _ (ret _) _ _ => apply spec_ret
  | |- spec _ (throw _) _ _ => apply spec_throw
  | |- spec _ (lift ?o) _ _ => apply spec_lift; destruct o eqn:?
  | |- spec _ (assign_ref _) _ _ => apply spec_assign_ref
  | |- spec _ (if ?b then _ else _) _ _ => destruct b eqn:?
  | |- spec _ (match ?x with Some _ => _ | None => _ end) _ _ => destruct x
  | |- spec _ ?m _ _ =>
      first
      [ apply spec_silent; [solve [silence side] | intros [?|?]]
      | lazymatch m with
        | invoke _ _ _ => apply spec_invoke; intros [?|?]
        | try_finally _ _ => apply spec_try_finally
        | try_catch _ _ => apply spec_try_catch
        | when true _ => unfold when at 1
        | when false _ => unfold when at 1
        | when ?b _ => unfold when at 1; destruct b eqn:?
        | forEach _ _ => fail
        | _ => let h := head_of m in unfold h at 1
        end ]
  end;
  cbn beta iota;
  cbn [proj filter fst snd app map_outcome surfaced set_ref
       repositoryPath repositoryOwner repositoryName ref commit clean
       fetchDepth lfs submodules nestedSubmodules submodulesRemoteBranch
       authToken sshKey persistCredentials];
  norm.

(** Rewrites with the equations recorded when a condition was split. *)
Ltac use_equations :=
  repeat match goal with
         | H : ?b = true |- context [?b] => rewrite H
         | H : ?b = false |- context [?b] => rewrite H
         end.

(** A property of every run of [getSource] is a property of the call. *)
Lemma spec_run env rel s (P : Outcome unit -> IGitSourceSettings -> Log -> Prop) :
  spec rel (getSource env) s P ->
  P (outcome_of (run env s)) (settings_of (run env s))
    (proj rel (log_of (run env s))).
Proof. intros H. exact (H []). Qed.

Lemma spec_any {A} rel (m : M A) s (P : Outcome A -> IGitSourceSettings -> Log -> Prop) :
  (forall r s' p, P r s' p) -> spec rel m s P.
Proof. intros H h. apply H. Qed.

(** ** Credentials of the repository *)

Section Credentials.

Variable env : Env.

Lemma removeAuth_never_when_persisted s :
  persistCredentials s = true ->
  spec isRemoveAuth (getSource env) s (fun _ _ p => p = []).
Proof.
  intros Hp. unfold getSource.
  repeat spec_step reflexivity ltac:(rewrite ?Hp; cbn [negb isRemoveAuth]);
    reflexivity.
Qed.

Ltac auth_side := cbn [authScope]; off_root.

Lemma auth_bracket s :
  persistCredentials s = false ->
  spec (authScope s) (getSource env) s (fun out _ auth =>
    (auth = [] \/ exists e, auth = [(createMain s, Throw e)])
    \/ (auth = [created s] /\ exists e, out = Throw e)
    \/ (exists r r', auth = [created s; (ConfigureAuth, r); (RemoveAuth, r')])).
Proof.
  intros Hp. unfold getSource, created, createMain.
  repeat spec_step auth_side
    ltac:(cbn [authScope]; rewrite ?Hp, ?String.eqb_refl; cbn [negb app]).
  all: solve [intuition eauto].
Qed.

End Credentials.

(** C1: with [persistCredentials = false], the calls that create the command
    manager of the repository, configure its credentials and remove them are,
    in order, one of: none or a failed creation (no native client); a
    successful creation alone, and then the call failed before
    [configureAuth]; or a successful creation, [configureAuth] and then
    [removeAuth], whatever their results and whatever happened in between.
    So once [configureAuth] has been invoked, [removeAuth] is invoked on the
    way out, on normal completion and on every error.  With
    [persistCredentials = true], [removeAuth] is never invoked. *)
Theorem C1_removeAuth_on_every_exit env s :
  let out := run env s in
  let auth := proj (authScope s) (log_of out) in
  (persistCredentials s = false ->
     (auth = [] \/ exists e, auth = [(createMain s, Throw e)])
     \/ (auth = [created s] /\ exists e, outcome_of out = Throw e)
     \/ (exists r r', auth = [created s; (ConfigureAuth, r); (RemoveAuth, r')]))
  /\ (persistCredentials s = true -> ~ In RemoveAuth (calls (log_of out))).
Proof.
  cbv zeta. split; intros Hp.
  - exact (spec_run _ _ _ _ (auth_bracket env s Hp)).
  - apply (proj_nil_not_in isRemoveAuth); [|reflexivity].
    exact (spec_run _ _ _ _ (removeAuth_never_when_persisted env s Hp)).
Qed.

Lemma C1_witness :
  (let out := run demoEnv demoSettings in
   let auth := proj (authScope demoSettings) (log_of out) in
   (auth = [] \/ exists e, auth = [(createMain demoSettings, Throw e)])
   \/ (auth = [created demoSettings] /\ exists e, outcome_of out = Throw e)
   \/ (exists r r',
         auth = [created demoSettings; (ConfigureAuth, r); (RemoveAuth, r')]))
  /\ ~ In RemoveAuth (calls (log_of (run demoEnv persistingSettings))).
Proof.
  split.
  - apply (proj1 (C1_removeAuth_on_every_exit demoEnv demoSettings)).
    reflexivity.
  - apply (proj2 (C1_removeAuth_on_every_exit demoEnv persistingSettings)).
    reflexivity.
Defined.

(** ** Choice of the acquisition method *)

Section Fallback.

Variable env : Env.

Ltac fallback_side := cbn [fallbackScope methodScope isDownload usesGit orb]; off_root.

Lemma fallback_cases s :
  spec (fallbackScope s) (getSource env) s (fun out _ p =>
    p = []
    \/ (exists rest, p = created s :: rest)
    \/ exists e rest, p = (createMain s, Throw e) :: rest /\
         if lfs s then rest = [] /\ out = Throw e
         else fallbackRun env s rest out).
Proof.
  unfold getSource, created, createMain.
  repeat first
    [ solve [apply spec_any; intros; eauto]
    | spec_step fallback_side
        ltac:(cbn [fallbackScope methodScope isDownload usesGit orb];
              rewrite ?String.eqb_refl; cbn [negb app]) ].
  all: try solve [auto].
  all: right; right; eexists; eexists; (split; [reflexivity|]); use_equations.
  all: try solve [auto].
  all: unfold fallbackRun, prepareWithoutGit, downloadCall; eexists; (split; [eassumption|]).
  all: eauto 12.
Qed.

End Fallback.



Lemma isDownload_in_scope s c : isDownload c = true -> fallbackScope s c = true.
Proof. destruct c; cbn; try discriminate; reflexivity. Qed.

(** C5: when the creation of a command manager throws, [getGitCommandManager]
    rethrows the error if [lfs] is set and returns [undefined] otherwise (and
    returns the manager when the creation succeeds).  In [getSource], when
    the creation of the command manager of the repository throws: with [lfs]
    the call fails with that error and neither method is started; without
    [lfs] the run goes on as the archive download ([fallbackRun]): no call
    goes through a command manager, and unless the preparation of an
    existing directory throws or the settings conflict with the download,
    [downloadRepository] is invoked and its outcome is the outcome of the
    call. *)
Theorem C5_construction_failure env s :
  (forall wd withLfs s0 h,
     outcome_of (getGitCommandManager env wd withLfs s0 h) =
     match answer_unit env h (CreateCommandManager wd withLfs) with
     | Ok _ => Ok (Some (mkGit wd withLfs))
     | Throw e => if withLfs then Throw e else Ok None
     end)
  /\
  (forall e rest,
     proj (fallbackScope s) (log_of (run env s)) = (createMain s, Throw e) :: rest ->
     if lfs s then rest = [] /\ outcome_of (run env s) = Throw e
     else fallbackRun env s rest (outcome_of (run env s))).
Proof.
  split.
  - intros wd withLfs s0 h.
    unfold getGitCommandManager, try_catch, createCommandManager, bind, call,
      invoke, ret, throw, outcome_of.
    destruct (answer_unit env h (CreateCommandManager wd withLfs)) as [u|e];
      cbn; [reflexivity|].
    destruct withLfs; reflexivity.
  - intros e rest Hp.
    destruct (spec_run _ _ _ _ (fallback_cases env s))
      as [H | [(rest' & H) | (e' & rest' & H & Hcase)]];
      rewrite Hp in H.
    + discriminate.
    + unfold created in H. discriminate.
    + injection H as <- <-. exact Hcase.
Qed.

Lemma C5_witness :
  (let s := demoSettings in
   fallbackRun noGitEnv s [(downloadCall s, Ok VUnit)]
     (outcome_of (run noGitEnv s)))
  /\ outcome_of (run noGitEnv lfsSettings) = Throw "failed".
Proof.
  split.
  - exact (proj2 (C5_construction_failure noGitEnv demoSettings)
             "failed" [(downloadCall demoSettings, Ok VUnit)] eq_refl).
  - exact (proj2 (proj2 (C5_construction_failure noGitEnv lfsSettings)
                    "failed" [] eq_refl)).
Defined.

(** C4: when the creation of the command manager of the repository throws and
    [submodules] is set or [sshKey] is non-empty, [getSource] fails and
    [downloadRepository] is never invoked.  Without [lfs] the error is the
    one raised for the conflicting input, unless the preparation of an
    existing directory threw first. *)
Theorem C4_conflict_before_download env s e rest :
  proj (fallbackScope s) (log_of (run env s)) = (createMain s, Throw e) :: rest ->
  submodules s = true \/ truthy (sshKey s) = true ->
  (exists e', outcome_of (run env s) = Throw e')
  /\ (forall c, In c (calls (log_of (run env s))) -> isDownload c = false)
  /\ (lfs s = false ->
      (exists url e', rest = [(prepareWithoutGit s url, Throw e')]
                      /\ outcome_of (run env s) = Throw e')
      \/ outcome_of (run env s) =
         Throw (if submodules s then submodulesNotSupported env
                else sshKeyNotSupported env)).
Proof.
  intros Hp Hconf.
  assert (Hcase :
    if lfs s then rest = [] /\ outcome_of (run env s) = Throw e
    else fallbackRun env s rest (outcome_of (run env s))).
  { destruct (spec_run _ _ _ _ (fallback_cases env s))
      as [H | [(rest' & H) | (e' & rest' & H & Hcase)]];
      rewrite Hp in H.
    - discriminate.
    - unfold created in H. discriminate.
    - injection H as <- <-. exact Hcase. }
  assert (Hrest : (exists e', outcome_of (run env s) = Throw e')
                  /\ Forall (fun x => isDownload (fst x) = false) rest
                  /\ (lfs s = false ->
      (exists url e', rest = [(prepareWithoutGit s url, Throw e')]
                      /\ outcome_of (run env s) = Throw e')
      \/ outcome_of (run env s) =
         Throw (if submodules s then submodulesNotSupported env
                else sshKeyNotSupported env))).
  { destruct (lfs s).
    - destruct Hcase as [-> ->]. repeat split; eauto. discriminate.
    - destruct Hcase as (url & _ & [(e' & -> & ->) | (pre & Hpre & Hcase)]).
      + repeat split; eauto.
      + assert (Hpre' : Forall (fun x => isDownload (fst x) = false) pre)
          by (destruct Hpre as [-> | ->]; repeat constructor).
        destruct Hcase as [(Hs & -> & ->) | [(Hs & Hk & -> & ->) | (Hs & Hk & _)]].
        * rewrite Hs. repeat split; eauto.
        * rewrite Hs. repeat split; eauto.
        * destruct Hconf; congruence. }
  destruct Hrest as (Hthrow & Hall & Hwhich).
  repeat split; [exact Hthrow | | exact Hwhich].
  intros c Hin. destruct (isDownload c) eqn:Hd; [exfalso | reflexivity].
  destruct (in_calls_proj (fallbackScope s) _ c Hin (isDownload_in_scope s c Hd))
    as [r Hr].
  rewrite Hp in Hr. destruct Hr as [Hr | Hr].
  - injection Hr as <- _. discriminate.
  - rewrite Forall_forall in Hall. specialize (Hall _ Hr). cbn in Hall. congruence.
Qed.

Lemma C4_witness :
  (exists e', outcome_of (run noGitEnv submoduleSettings) = Throw e')
  /\ (forall c, In c (calls (log_of (run noGitEnv submoduleSettings))) ->
                isDownload c = false).
Proof.
  destruct (C4_conflict_before_download noGitEnv submoduleSettings "failed" []
              eq_refl (or_introl eq_refl)) as (H1 & H2 & _).
  split; assumption.
Defined.

(** ** One acquisition method per call *)

Section Methods.

Variable env : Env.

Ltac method_side := cbn [methodScope isDownload usesGit orb]; reflexivity.

Lemma native_emits git url s :
  emits methodScope viaGit
    (try_finally (acquire env git url) (removeAuthUnlessPersisted env)) s.
Proof.
  emission ltac:(reflexivity) ltac:(intros; split; reflexivity).
Qed.

Ltac method_norm :=
  try match goal with
      | |- context [PrepareExistingDirectory ?g] => is_var g; destruct g
      end;
  cbn [methodScope isDownload usesGit orb app].

Ltac all_via_git :=
  repeat first
    [ apply Forall_nil
    | apply Forall_cons; [split; reflexivity|]
    | assumption ].

Lemma methods_exclusive s :
  spec methodScope (getSource env) s (fun out _ p =>
    ((exists r, p = [(downloadCall s, r)]) \/ Forall viaGit p)
    /\ (out = Ok tt -> p <> [])).
Proof.
  unfold getSource.
  repeat first
    [ eapply spec_emits; [apply native_emits | intros r v p Hp; cbn beta]
    | spec_step method_side method_norm ].
  all: cbn [app]; split;
    [ first [ left; eexists; reflexivity | right; solve [all_via_git] ]
    | first [ discriminate | intro H; discriminate H ] ].
Qed.

End Methods.


(** C9 (as amended): per call, the calls of the two acquisition methods are
    either a single [downloadRepository], with the arguments of the settings,
    or calls that go through a command manager only, never both; and a call
    that completes normally has used one of the two. *)
Theorem C9_at_most_one_method env s :
  let p := proj methodScope (log_of (run env s)) in
  ((exists r, p = [(downloadCall s, r)]) \/ Forall viaGit p)
  /\ (outcome_of (run env s) = Ok tt -> p <> []).
Proof. exact (spec_run _ _ _ _ (methods_exclusive env s)). Qed.

Lemma C9_witness : proj methodScope (log_of (run demoEnv demoSettings)) <> [].
Proof.
  apply (proj2 (C9_at_most_one_method demoEnv demoSettings)). reflexivity.
Defined.

(** Without git and with [submodules] set, the call fails having used
    neither method, so "exactly one method per call" does not hold. *)
Lemma C9_counterexample :
  let l := calls (log_of (run noGitEnv submoduleSettings)) in
  let downloaded := exists c, In c l /\ isDownload c = true in
  let native := exists c, In c l /\ usesGit c = true in
  ~ ((downloaded /\ ~ native) \/ (native /\ ~ downloaded)).
Proof.
  cbv zeta. vm_compute calls.
  intros [[(c & Hin & Hc) _] | [(c & Hin & Hc) _]]; cbn in Hin;
    repeat (destruct Hin as [<- | Hin]; [discriminate Hc|]); exact Hin.
Qed.

(** ** Default branch *)

Section Resolution.

Variable env : Env.

Ltac resolve_side :=
  cbn [resolveScope]; unfold onRoot; cbn [workingDirectory]; off_root.

Ltac resolve_norm :=
  cbn [resolveScope]; unfold onRoot; cbn [workingDirectory];
  rewrite ?String.eqb_refl; cbn [app].

Ltac fetches_for :=
  repeat first
    [ apply Forall_nil
    | apply Forall_cons; [unfold fetchFor; cbn [fst]; eauto 6|] ].

(** What follows the resolution of the default branch: the selected calls
    are fetches for the ref the settings then hold. *)
Lemma fetches_after_resolution_at s v :
  spec (resolveScope s)
    (installLfs env (mainGit s);;
     fetchRepository env (mainGit s);;
     checkoutRequestedRef env (mainGit s);;
     checkoutSubmodules env (mainGit s);;
     checkCommit env (mainGit s))
    (set_ref s v)
    (fun _ s' p => s' = set_ref s v /\ Forall (fetchFor env s v) p).
Proof.
  unfold mainGit.
  repeat spec_step resolve_side resolve_norm.
  all: split; [reflexivity | solve [fetches_for]].
Qed.

Lemma fetches_after_resolution s :
  spec (resolveScope s)
    (installLfs env (mainGit s);;
     fetchRepository env (mainGit s);;
     checkoutRequestedRef env (mainGit s);;
     checkoutSubmodules env (mainGit s);;
     checkCommit env (mainGit s))
    s
    (fun _ s' p => s' = s /\ Forall (fetchFor env s (ref s)) p).
Proof.
  pose proof (fetches_after_resolution_at s (ref s)) as H.
  now rewrite set_ref_same in H.
Qed.

Lemma resolution_cases s :
  spec (resolveScope s) (getSource env) s (fun out s' p =>
    forall rest, p = (ConfigureAuth, Ok VUnit) :: rest ->
                 resolution env s rest s').
Proof.
  unfold getSource.
  repeat first
    [ eapply spec_mono;
      [ first [apply fetches_after_resolution_at | apply fetches_after_resolution]
      | cbn beta; intros ? ? ? [-> ?] ]
    | spec_step resolve_side resolve_norm ].
  all: intros rest Hp; try discriminate Hp; injection Hp as <-.
  all: repeat match goal with
              | H : negb ?a = _ |- _ =>
                  is_var a; destruct a; try discriminate H; clear H
              end.
  all: rewrite ?app_nil_r; unfold resolution;
    eexists; (split; [eassumption|]); use_equations.
  all: try (eexists; eexists; (split; [reflexivity|]); cbn beta iota).
  all: unfold lookedUp, keptRef, lookupCall, mainGit; use_equations;
    cbn [set_ref ref]; eauto 8.
Qed.

End Resolution.

(** C3 (as amended): after a successful [configureAuth], the default branch
    is looked up exactly when neither ref nor commit is given, or a ref is
    given and [remoteBranchExists] reports that it is not a branch of the
    remote.  In both cases the value of the lookup overwrites [settings.ref]
    and the fetches that follow are for it.  [settings.ref] keeps its value
    when the ref is a branch of the remote, when only a commit is given, and
    when a call throws before the assignment. *)
Theorem C3_default_branch_resolution env s rest :
  proj (resolveScope s) (log_of (run env s)) = (ConfigureAuth, Ok VUnit) :: rest ->
  resolution env s rest (settings_of (run env s)).
Proof. exact (spec_run _ _ _ _ (resolution_cases env s) rest). Qed.

Lemma C3_witness :
  let out := run tagEnv tagSettings in
  resolution tagEnv tagSettings
    (tl (proj (resolveScope tagSettings) (log_of out))) (settings_of out).
Proof.
  cbv zeta. apply C3_default_branch_resolution. vm_compute. reflexivity.
Defined.

(** A ref that is not a branch of the remote (here a tag) is replaced by the
    default branch before fetching. *)
Lemma C3_counterexample :
  let s := tagSettings in
  let out := run tagEnv s in
  ~ (ref s <> "" ->
     In (Git (mainGit s) (RemoteBranchExists (ref s)), Ok (VBool false))
        (log_of out) ->
     ref (settings_of out) = ref s
     /\ ~ In (ApiGetDefaultBranch (authToken s) (repositoryOwner s)
                (repositoryName s)) (calls (log_of out))).
Proof.
  cbv zeta. intros H. destruct H as [Href _].
  - discriminate.
  - vm_compute. repeat (first [left; reflexivity | right]).
  - vm_compute in Href. discriminate Href.
Qed.

Example tag_is_replaced_by_default_branch :
  ref (settings_of (run tagEnv tagSettings)) = "refs/heads/main"
  /\ proj (fetchScope tagSettings) (log_of (run tagEnv tagSettings)) =
     [ (Git (mainGit tagSettings) (Fetch ["targeted"; "refs/heads/main"; ""] (Some 1)),
        Ok VUnit) ].
Proof. split; reflexivity. Qed.

(** C8: with neither ref nor commit given, after a successful
    [configureAuth] the next call is the lookup of the default branch,
    [git.getDefaultBranch(repositoryUrl)] when [sshKey] is set and the API
    otherwise; its value overwrites [settings.ref], and every fetch comes
    after it and is for that value. *)
Theorem C8_default_branch_lookup env s rest :
  ref s = "" -> commit s = "" ->
  proj (resolveScope s) (log_of (run env s)) = (ConfigureAuth, Ok VUnit) :: rest ->
  exists url, getFetchUrl env s = Ok url
              /\ lookedUp env s url rest (settings_of (run env s)).
Proof.
  intros Hr Hc Hp.
  destruct (spec_run _ _ _ _ (resolution_cases env s) rest Hp) as (url & Hurl & H).
  exists url. split; [assumption|].
  replace (negb (truthy (ref s)) && negb (truthy (commit s))) with true in H
    by (rewrite Hr, Hc; reflexivity).
  exact H.
Qed.

Lemma C8_witness :
  let s := defaultSettings in
  let out := run demoEnv s in
  exists url, getFetchUrl demoEnv s = Ok url
              /\ lookedUp demoEnv s url
                   (tl (proj (resolveScope s) (log_of out))) (settings_of out).
Proof.
  cbv zeta. apply C8_default_branch_lookup;
    [reflexivity | reflexivity | vm_compute; reflexivity].
Defined.

(** ** Fetch *)

Section Fetching.

Variable env : Env.

Ltac fetch_side :=
  cbn [fetchScope]; unfold onRoot; cbn [workingDirectory]; off_root.

Ltac fetch_norm H :=
  cbn [fetchScope]; unfold onRoot; cbn [workingDirectory];
  rewrite ?String.eqb_refl, ?H; cbn [app].

Lemma full_history_fetches s :
  fetchDepth s <= 0 ->
  spec (fetchScope s) (getSource env) s (fun out s' p =>
    fullHistoryFetch env s s' p out).
Proof.
  intros Hd. apply Z.leb_le in Hd. unfold getSource.
  repeat spec_step fetch_side ltac:(fetch_norm Hd).
  all: unfold fullHistoryFetch, mainGit; cbn [set_ref ref commit].
  all: try solve [left; reflexivity].
  all: repeat match goal with
              | H : negb ?a = _ |- _ =>
                  is_var a; destruct a; try discriminate H; clear H
              end.
  all: right; eexists; (split; [eassumption|]); cbv zeta; eauto 12.
Qed.

Lemma shallow_fetch s :
  0 < fetchDepth s ->
  spec (fetchScope s) (getSource env) s (fun out s' p => shallowFetch env s s' p).
Proof.
  intros Hd. apply Z.leb_gt in Hd. unfold getSource.
  repeat spec_step fetch_side ltac:(fetch_norm Hd).
  all: unfold shallowFetch, mainGit; cbn [set_ref ref commit].
  all: try solve [left; reflexivity].
  all: right; eauto.
Qed.


Lemma fetch_reached s :
  spec (reachScope s) (getSource env) s (fun out _ q =>
    out = Ok tt ->
    q = [] \/ exists r x rest, q = (ConfigureAuth, r) :: x :: rest
                               /\ fetchScope s (fst x) = true).
Proof.
  unfold getSource.
  repeat spec_step
    ltac:(cbn [reachScope]; fetch_side)
    ltac:(cbn [reachScope fetchScope]; unfold onRoot; cbn [workingDirectory];
          rewrite ?String.eqb_refl; cbn [app]).
  all: intros Hout; try discriminate Hout.
  all: try solve [left; reflexivity].
  all: right; do 3 eexists; refine (conj eq_refl _);
    cbn [fetchScope fst]; unfold onRoot; cbn [workingDirectory];
    apply String.eqb_refl.
Qed.

End Fetching.

(** C2: with [fetchDepth <= 0], the fetches of the repository and the check
    between them are, in order: the fetch of the all-history refspec of the
    ref and commit of the settings, then [testRef]; if and only if [testRef]
    reports [false], one fetch of the targeted refspec follows; nothing else
    ([fullHistoryFetch] also lists where an error cuts the sequence short).
    With [fetchDepth > 0] there is a single fetch, of the targeted refspec,
    with the given depth.  A call that invoked [configureAuth] and completed
    normally has fetched. *)
Theorem C2_fetch_strategy env s :
  let out := run env s in
  let p := proj (fetchScope s) (log_of out) in
  (fetchDepth s <= 0 -> fullHistoryFetch env s (settings_of out) p (outcome_of out))
  /\ (0 < fetchDepth s -> shallowFetch env s (settings_of out) p)
  /\ (outcome_of out = Ok tt -> In ConfigureAuth (calls (log_of out)) -> p <> []).
Proof.
  cbv zeta. split; [|split].
  - intros Hd. exact (spec_run _ _ _ _ (full_history_fetches env s Hd)).
  - intros Hd. exact (spec_run _ _ _ _ (shallow_fetch env s Hd)).
  - intros Hout Hin Hp.
    destruct (in_calls_proj (reachScope s) _ _ Hin eq_refl) as [r Hr].
    destruct (spec_run _ _ _ _ (fetch_reached env s) Hout)
      as [Hq | (r' & x & rest & Hq & Hx)]; rewrite Hq in Hr.
    + exact Hr.
    + assert (Hxq : In x (proj (reachScope s) (log_of (run env s))))
        by (rewrite Hq; right; left; reflexivity).
      apply filter_In in Hxq. destruct Hxq as [Hxl _].
      assert (Hxp : In x (proj (fetchScope s) (log_of (run env s))))
        by (apply filter_In; split; assumption).
      rewrite Hp in Hxp. exact Hxp.
Qed.

Lemma C2_witness :
  (let out := run movedEnv defaultSettings in
   fullHistoryFetch movedEnv defaultSettings (settings_of out)
     (proj (fetchScope defaultSettings) (log_of out)) (outcome_of out))
  /\ (let out := run demoEnv demoSettings in
      shallowFetch demoEnv demoSettings (settings_of out)
        (proj (fetchScope demoSettings) (log_of out))
      /\ proj (fetchScope demoSettings) (log_of out) <> []).
Proof.
  split.
  - apply (proj1 (C2_fetch_strategy movedEnv defaultSettings)). cbn. lia.
  - split.
    + apply (proj1 (proj2 (C2_fetch_strategy demoEnv demoSettings))). cbn. lia.
    + apply (proj2 (proj2 (C2_fetch_strategy demoEnv demoSettings))).
      * reflexivity.
      * vm_compute. repeat (first [left; reflexivity | right]).
Defined.

(** A ref that moved after the blanket fetch is fetched once more, with the
    targeted refspec of the resolved default branch. *)
Example moved_ref_is_refetched :
  proj (fetchScope defaultSettings) (log_of (run movedEnv defaultSettings)) =
  let g := mainGit defaultSettings in
  [ (Git g (Fetch ["all"; "refs/heads/main"; ""] None), Ok VUnit);
    (TestRef g "refs/heads/main" "", Ok (VBool false));
    (Git g (Fetch ["targeted"; "refs/heads/main"; ""] None), Ok VUnit) ].
Proof. reflexivity. Qed.

(** ** Submodules: credentials *)

Section SubmoduleAuth.

Variable env : Env.

Ltac subauth_side :=
  cbn [submoduleAuthScope]; unfold onRoot; cbn [workingDirectory]; off_root.

Ltac subauth_norm H :=
  cbn [submoduleAuthScope]; unfold onRoot; cbn [workingDirectory];
  rewrite ?String.eqb_refl, ?H; cbn [app orb andb].

Lemma submodule_auth_when_wanted s :
  submodules s && (persistCredentials s || truthy (submodulesRemoteBranch s)) = true ->
  spec (submoduleAuthScope s) (getSource env) s (fun out _ p =>
    p = [] \/ (exists e, p = [(foreachCall s, Throw e)])
    \/ exists r, p = [(foreachCall s, Ok VUnit); (ConfigureSubmoduleAuth, r)]).
Proof.
  intros H. apply andb_prop in H. destruct H as [Hs Hw].
  unfold getSource, foreachCall, mainGit.
  repeat spec_step subauth_side ltac:(subauth_norm Hs; rewrite ?Hw).
  all: eauto 6.
Qed.

Lemma submodule_auth_when_unwanted s :
  submodules s && (persistCredentials s || truthy (submodulesRemoteBranch s)) = false ->
  spec (submoduleAuthScope s) (getSource env) s (fun out _ p =>
    p = [] \/ exists r, p = [(foreachCall s, r)]).
Proof.
  intros H. unfold getSource, foreachCall, mainGit.
  apply andb_false_elim in H. destruct H as [H | H].
  - repeat spec_step subauth_side ltac:(subauth_norm H).
    all: eauto.
  - repeat spec_step subauth_side ltac:(subauth_norm H).
    all: eauto.
Qed.

Lemma submodule_auth_reached s :
  submodules s && (persistCredentials s || truthy (submodulesRemoteBranch s)) = true ->
  spec (reachSubmoduleAuthScope s) (getSource env) s (fun out _ q =>
    out = Ok tt ->
    q = [] \/ exists r, q = [(ConfigureAuth, r); (foreachCall s, Ok VUnit);
                             (ConfigureSubmoduleAuth, Ok VUnit)]).
Proof.
  intros H. apply andb_prop in H. destruct H as [Hs Hw].
  unfold getSource, foreachCall, mainGit.
  repeat spec_step ltac:(cbn [reachSubmoduleAuthScope]; subauth_side)
    ltac:(cbn [reachSubmoduleAuthScope]; subauth_norm Hs; rewrite ?Hw).
  all: intros Hout; try discriminate Hout.
  all: eauto.
Qed.

End SubmoduleAuth.

(** C10: [configureSubmoduleAuth] is invoked exactly when [submodules] is set
    and [persistCredentials] is set or [submodulesRemoteBranch] is non-empty,
    so also when [persistCredentials] is [false] and a remote branch is
    given.  It is invoked once, right after [submoduleForeach] has returned;
    when the condition does not hold it is never invoked; when the condition
    holds, a call that went through git ([configureAuth] was invoked) and
    completed normally has invoked it, and it returned. *)
Theorem C10_configureSubmoduleAuth_condition env s :
  let p := proj (submoduleAuthScope s) (log_of (run env s)) in
  let wanted :=
    submodules s && (persistCredentials s || truthy (submodulesRemoteBranch s)) in
  (wanted = true ->
     p = [] \/ (exists e, p = [(foreachCall s, Throw e)])
     \/ exists r, p = [(foreachCall s, Ok VUnit); (ConfigureSubmoduleAuth, r)])
  /\ (wanted = false -> ~ In ConfigureSubmoduleAuth (calls (log_of (run env s))))
  /\ (wanted = true ->
      outcome_of (run env s) = Ok tt ->
      In ConfigureAuth (calls (log_of (run env s))) ->
      p = [(foreachCall s, Ok VUnit); (ConfigureSubmoduleAuth, Ok VUnit)]).
Proof.
  cbv zeta. split; [|split]; intros H.
  - exact (spec_run _ _ _ _ (submodule_auth_when_wanted env s H)).
  - intros Hin.
    destruct (in_calls_proj (submoduleAuthScope s) _ _ Hin eq_refl) as [r Hr].
    destruct (spec_run _ _ _ _ (submodule_auth_when_unwanted env s H))
      as [Hp | [r' Hp]]; rewrite Hp in Hr.
    + exact Hr.
    + destruct Hr as [Hr | []]. discriminate Hr.
  - intros Hout Hin.
    destruct (in_calls_proj (reachSubmoduleAuthScope s) _ _ Hin eq_refl)
      as [r Hr].
    pose proof (proj_proj (submoduleAuthScope s) (reachSubmoduleAuthScope s)
                  (log_of (run env s))) as Hpp.
    destruct (spec_run _ _ _ _ (submodule_auth_reached env s H) Hout)
      as [Hq | (r' & Hq)]; rewrite Hq in Hr.
    + destruct Hr.
    + rewrite <- Hpp; [|intros c Hc; destruct c; try discriminate Hc;
                          exact Hc].
      rewrite Hq. unfold foreachCall, mainGit, proj.
      cbn [filter fst submoduleAuthScope].
      unfold onRoot. cbn [workingDirectory].
      rewrite String.eqb_refl. reflexivity.
Qed.

Lemma C10_witness :
  (let s := recursiveSettings in
   let p := proj (submoduleAuthScope s) (log_of (run demoEnv s)) in
   p = [] \/ (exists e, p = [(foreachCall s, Throw e)])
   \/ exists r, p = [(foreachCall s, Ok VUnit); (ConfigureSubmoduleAuth, r)])
  /\ ~ In ConfigureSubmoduleAuth (calls (log_of (run demoEnv submoduleSettings)))
  /\ (let s := recursiveSettings in
      proj (submoduleAuthScope s) (log_of (run demoEnv s)) =
      [(foreachCall s, Ok VUnit); (ConfigureSubmoduleAuth, Ok VUnit)]).
Proof.
  split; [|split].
  - apply (proj1 (C10_configureSubmoduleAuth_condition demoEnv recursiveSettings)).
    reflexivity.
  - apply (proj1 (proj2 (C10_configureSubmoduleAuth_condition demoEnv
                           submoduleSettings))).
    reflexivity.
  - apply (proj2 (proj2 (C10_configureSubmoduleAuth_condition demoEnv
                           recursiveSettings))).
    + reflexivity.
    + reflexivity.
    + vm_compute. repeat (first [left; reflexivity | right]).
Defined.

(** With a remote branch for the submodules and [persistCredentials] unset,
    the credentials are still written to the submodules. *)
Example submodule_auth_without_persistence :
  persistCredentials recursiveSettings = false
  /\ proj (submoduleAuthScope recursiveSettings)
       (log_of (run demoEnv recursiveSettings)) =
     [ (foreachCall recursiveSettings, Ok VUnit);
       (ConfigureSubmoduleAuth, Ok VUnit) ].
Proof. split; reflexivity. Qed.

(** ** Submodules: the global credentials *)

Section GlobalAuth.

Variable env : Env.

Ltac sub_eval :=
  cbn [submoduleScope isMainCheckout isGlobalAuth isSubmoduleOp fst];
  cbv beta delta [onRoot submodulePath];
  cbn [workingDirectory set_ref repositoryPath];
  rewrite ?subpath_fresh, ?String.eqb_refl;
  cbn [negb orb andb app].

Ltac sub_off := sub_eval; reflexivity.
Ltac sub_on := intros; split; sub_eval; reflexivity.

Lemma global_auth_bracket s :
  submodules s = true ->
  spec (submoduleScope s) (getSource env) s (fun out _ p =>
    p = []
    \/ (exists c e, isMainCheckout s c = true /\ p = [(c, Throw e)])
    \/ exists c phase, isMainCheckout s c = true /\ p = (c, Ok VUnit) :: phase
                       /\ globalAuthBracket s phase).
Proof.
  intros Hs. unfold getSource.
  repeat first
    [ lazymatch goal with
      | |- spec _ (bind (call _ (Git _ (SubmoduleSync _))) _) _ _ =>
          eapply (spec_emits _ (submoduleWork s));
          [ solve [emission sub_off sub_on] | intros [?|?] ? ? ?; cbn beta ]
      end
    | spec_step sub_off ltac:(sub_eval; rewrite ?Hs) ].
  all: rewrite ?app_nil_r.
  all: try solve [left; reflexivity].
  all: try solve [right; left; do 2 eexists; refine (conj _ eq_refl);
                  cbn [isMainCheckout]; cbv beta delta [onRoot];
                  cbn [workingDirectory]; apply String.eqb_refl].
  all: right; right; do 2 eexists; refine (conj _ (conj eq_refl _));
    [ cbn [isMainCheckout]; cbv beta delta [onRoot];
      cbn [workingDirectory]; apply String.eqb_refl | ].
  all: unfold globalAuthBracket;
    first [ eexists; exists []; eexists;
            split; [reflexivity | split; [constructor | intros; reflexivity]]
          | eexists; eexists; eexists;
            split; [reflexivity
                   | split; [eassumption | intros ? Hd; discriminate Hd]] ].
Qed.


End GlobalAuth.

(** C7: with [submodules] set, once the checkout of the repository has
    returned, the calls that follow are [configureGlobalAuth], then the
    submodule operations, then [removeGlobalAuth]: no submodule operation
    comes before [configureGlobalAuth], none is made when it throws, and
    [removeGlobalAuth] is invoked whatever the results of the calls of the
    phase, [configureGlobalAuth] included. *)
Theorem C7_global_auth_scope env s :
  submodules s = true ->
  let p := proj (submoduleScope s) (log_of (run env s)) in
  p = []
  \/ (exists c e, isMainCheckout s c = true /\ p = [(c, Throw e)])
  \/ exists c phase, isMainCheckout s c = true /\ p = (c, Ok VUnit) :: phase
                     /\ globalAuthBracket s phase.
Proof.
  intros Hs. exact (spec_run _ _ _ _ (global_auth_bracket env s Hs)).
Qed.

Lemma C7_witness :
  let s := recursiveSettings in
  let p := proj (submoduleScope s) (log_of (run brokenGlobalAuthEnv s)) in
  p = []
  \/ (exists c e, isMainCheckout s c = true /\ p = [(c, Throw e)])
  \/ exists c phase, isMainCheckout s c = true /\ p = (c, Ok VUnit) :: phase
                     /\ globalAuthBracket s phase.
Proof.
  exact (C7_global_auth_scope brokenGlobalAuthEnv recursiveSettings eq_refl).
Defined.

(** When [configureGlobalAuth] throws, [removeGlobalAuth] still runs and no
    submodule operation is made. *)
Example removeGlobalAuth_after_failed_configure :
  proj (submoduleScope recursiveSettings)
    (log_of (run brokenGlobalAuthEnv recursiveSettings)) =
  [ (Git (mainGit recursiveSettings) (Checkout "refs/heads/dev" ""), Ok VUnit);
    (ConfigureGlobalAuth, Throw "failed");
    (RemoveGlobalAuth, Ok VUnit) ].
Proof. reflexivity. Qed.

(** ** Submodules: the remote branch *)

Section Override.

Variable env : Env.

Ltac over_eval :=
  cbn [overrideScope fst];
  cbv beta delta [onRoot submodulePath];
  cbn [workingDirectory set_ref repositoryPath];
  rewrite ?subpath_fresh, ?String.eqb_refl;
  cbn [negb orb andb app].

Ltac over_off := over_eval; reflexivity.

Lemma override_body s v sub :
  spec (overrideScope s) (checkoutSubmoduleRemoteBranch env sub) (set_ref s v)
    (fun out s' b =>
       s' = set_ref s v /\
       match out with
       | Ok _ => skipped s sub b \/ updated env s sub b
       | Throw _ => aborted s sub b
       end).
Proof.
  repeat spec_step over_off over_eval.
  all: split; [reflexivity|]; subst.
  all: unfold skipped, updated, aborted, updateEntries, createSub, exposes,
         subGit, submodulePath;
       use_equations;
       cbn [app].
  all: try solve
    [ left; left; split; [reflexivity | eexists; reflexivity]
    | left; right; reflexivity
    | right; eexists; eexists; split; [intros _; eassumption | reflexivity]
    | right; eexists; exists []; split;
      [ intros Hlt; apply Z.ltb_lt in Hlt; congruence | reflexivity ]
    | left; split; [reflexivity | eexists; reflexivity]
    | right; left; eexists; reflexivity
    | right; right; eexists; split;
      [ reflexivity
      | repeat (apply Forall_cons;
                [ unfold touches, subGit, submodulePath; cbn [fst];
                  use_equations;
                  reflexivity |]);
        apply Forall_nil ] ].
Qed.

Lemma override_loop s v l :
  spec (overrideScope s) (forEach l (checkoutSubmoduleRemoteBranch env))
    (set_ref s v)
    (fun _ s' p => s' = set_ref s v /\ overrideRun env s l p).
Proof.
  induction l as [|sub l IH]; cbn [forEach overrideRun].
  - apply spec_ret. auto.
  - apply spec_bind. eapply spec_mono; [apply override_body|].
    intros [u|e] s' b [-> Hb].
    + eapply spec_mono; [exact IH|].
      intros r s' p [-> Hp]. split; [reflexivity|].
      exists b, p. split; [reflexivity|]. left. split; assumption.
    + split; [reflexivity|].
      exists b, []. split; [now rewrite app_nil_r|]. right. split; auto.
Qed.

Lemma override_cases s :
  submodules s = true -> truthy (submodulesRemoteBranch s) = true ->
  spec (overrideScope s) (getSource env) s (fun _ _ p =>
    p = []
    \/ (exists e, p = [(Git (mainGit s) GetSubmodulesList, Throw e)])
    \/ exists l blocks,
         p = (Git (mainGit s) GetSubmodulesList, Ok (VStrings l)) :: blocks
         /\ overrideRun env s l blocks).
Proof.
  intros Hs Hb. unfold getSource, mainGit.
  repeat first
    [ eapply spec_mono;
      [apply override_loop | cbn beta; intros [?|?] ? ? [-> ?]]
    | spec_step over_off ltac:(over_eval; rewrite ?Hs, ?Hb) ].
  all: rewrite ?app_nil_r; eauto 8.
Qed.

(** *** Runs that complete *)

Ltac reach_eval := cbn [reachOverrideScope]; over_eval.

Ltac reach_off := reach_eval; reflexivity.

Lemma override_body_complete s v sub :
  spec (reachOverrideScope s) (checkoutSubmoduleRemoteBranch env sub)
    (set_ref s v)
    (fun out s' b =>
       s' = set_ref s v /\
       match out with
       | Ok _ => skipped s sub b \/ updated env s sub b
       | Throw _ => True
       end).
Proof.
  repeat spec_step reach_off reach_eval.
  all: split; [reflexivity|]; subst.
  all: try exact I.
  all: unfold skipped, updated, updateEntries, createSub, exposes,
         subGit, submodulePath;
       use_equations;
       cbn [app].
  all: solve
    [ left; left; split; [reflexivity | eexists; reflexivity]
    | left; right; reflexivity
    | right; eexists; eexists; split; [intros _; eassumption | reflexivity]
    | right; eexists; exists []; split;
      [ intros Hlt; apply Z.ltb_lt in Hlt; congruence | reflexivity ] ].
Qed.

Lemma override_loop_complete s v l :
  spec (reachOverrideScope s) (forEach l (checkoutSubmoduleRemoteBranch env))
    (set_ref s v)
    (fun out s' p =>
       s' = set_ref s v /\
       match out with
       | Ok _ => overrideComplete env s l p
       | Throw _ => True
       end).
Proof.
  induction l as [|sub l IH]; cbn [forEach overrideComplete].
  - apply spec_ret. auto.
  - apply spec_bind. eapply spec_mono; [apply override_body_complete|].
    intros [u|e] s' b [-> Hb].
    + eapply spec_mono; [exact IH|].
      intros [u'|e'] s' p [-> Hp]; (split; [reflexivity|]); [|exact I].
      exists b, p. auto.
    + split; [reflexivity | exact I].
Qed.

Lemma override_reached s :
  submodules s = true -> truthy (submodulesRemoteBranch s) = true ->
  spec (reachOverrideScope s) (getSource env) s (fun out _ q =>
    out = Ok tt ->
    q = []
    \/ exists r l blocks,
         q = (ConfigureAuth, r)
             :: (Git (mainGit s) GetSubmodulesList, Ok (VStrings l)) :: blocks
         /\ overrideComplete env s l blocks).
Proof.
  intros Hs Hb. unfold getSource, mainGit.
  repeat first
    [ eapply spec_mono;
      [apply override_loop_complete | cbn beta; intros [?|?] ? ? [-> ?]]
    | spec_step reach_off ltac:(reach_eval; rewrite ?Hs, ?Hb) ].
  all: intros Hout; try discriminate Hout.
  all: rewrite ?app_nil_r; eauto 8.
Qed.

(** With [lfs], a loop that went through the whole list created every
    command manager. *)
Lemma complete_creates_all s l :
  lfs s = true ->
  forall p, overrideComplete env s l p ->
  forall wd w e, ~ In (CreateCommandManager wd w, Throw e) p.
Proof.
  intros Hl. induction l as [|sub l IH]; cbn [overrideComplete].
  - intros p -> wd w e [].
  - intros p (b & p' & -> & Hb & Hp') wd w e Hin.
    apply in_app_or in Hin. destruct Hin as [Hin | Hin].
    + destruct Hb as [[[Hf _] | ->] | (ci & refSpec & _ & ->)].
      * congruence.
      * cbn [In] in Hin. intuition discriminate.
      * unfold updateEntries in Hin. rewrite Hl in Hin.
        destruct (0 <? fetchDepth s); cbn [app In] in Hin;
          intuition discriminate.
    + exact (IH p' Hp' wd w e Hin).
Qed.

End Override.

(** C6: with [submodules] set and a remote branch given, the calls that
    concern the command managers of the submodules follow the list returned
    by [getSubmodulesList], one block per submodule, in order
    ([overrideRun]).  A submodule whose command manager cannot be created
    while [lfs] is unset, or whose remote does not have the branch, gets the
    creation of the manager and at most [remoteBranchExists], nothing else
    ([skipped]), and the loop goes on.  A submodule whose remote has the
    branch gets [lfsInstall] (with [lfs]), a fetch of the branch exactly when
    [fetchDepth > 0], [getCheckoutInfo] for the branch, [lfsFetch] (with
    [lfs]) and the checkout of what [getCheckoutInfo] returned ([updated]).
    An error ends the loop ([aborted]): the submodules after it get no call.
    A call that went through git ([configureAuth] was invoked) and completed
    normally has obtained the list and gone through all of it, every
    submodule skipped or updated ([overrideComplete]).  With [lfs] set, a
    command manager that cannot be created for a submodule is such an
    error: the call fails. *)
Theorem C6_remote_branch_override env s :
  submodules s = true -> truthy (submodulesRemoteBranch s) = true ->
  let out := run env s in
  let p := proj (overrideScope s) (log_of out) in
  (p = []
   \/ (exists e, p = [(Git (mainGit s) GetSubmodulesList, Throw e)])
   \/ exists l blocks,
        p = (Git (mainGit s) GetSubmodulesList, Ok (VStrings l)) :: blocks
        /\ overrideRun env s l blocks)
  /\ (outcome_of out = Ok tt ->
      In ConfigureAuth (calls (log_of out)) ->
      exists r l blocks,
        proj (reachOverrideScope s) (log_of out) =
        (ConfigureAuth, r)
        :: (Git (mainGit s) GetSubmodulesList, Ok (VStrings l)) :: blocks
        /\ overrideComplete env s l blocks)
  /\ (lfs s = true ->
      forall sub e, In (createSub s sub, Throw e) (log_of out) ->
      exists e', outcome_of out = Throw e').
Proof.
  intros Hs Hb. cbv zeta. split; [|split].
  - exact (spec_run _ _ _ _ (override_cases env s Hs Hb)).
  - intros Hout Hin.
    destruct (in_calls_proj (reachOverrideScope s) _ _ Hin eq_refl) as [r Hr].
    destruct (spec_run _ _ _ _ (override_reached env s Hs Hb) Hout)
      as [Hq | (r' & l & blocks & Hq & Hc)].
    + rewrite Hq in Hr. destruct Hr.
    + exists r', l, blocks. split; assumption.
  - intros Hl sub e Hin.
    destruct (outcome_of (run env s)) as [[]|e'] eqn:Hout; [|eexists; reflexivity].
    exfalso.
    assert (Hsel : reachOverrideScope s (createSub s sub) = true).
    { unfold createSub. cbn [reachOverrideScope overrideScope].
      unfold submodulePath. rewrite subpath_fresh. reflexivity. }
    pose proof (in_proj (reachOverrideScope s) _ _ Hin Hsel) as Hp.
    destruct (spec_run _ _ _ _ (override_reached env s Hs Hb) Hout)
      as [Hq | (r' & l & blocks & Hq & Hc)]; rewrite Hq in Hp.
    + destruct Hp.
    + destruct Hp as [Hp | [Hp | Hp]]; try discriminate Hp.
      exact (complete_creates_all env s l Hl blocks Hc _ _ _ Hp).
Qed.

Lemma C6_witness :
  (let s := recursiveSettings in
   let out := run partialEnv s in
   let p := proj (overrideScope s) (log_of out) in
   (p = []
    \/ (exists e, p = [(Git (mainGit s) GetSubmodulesList, Throw e)])
    \/ exists l blocks,
         p = (Git (mainGit s) GetSubmodulesList, Ok (VStrings l)) :: blocks
         /\ overrideRun partialEnv s l blocks)
   /\ exists r l blocks,
        proj (reachOverrideScope s) (log_of out) =
        (ConfigureAuth, r)
        :: (Git (mainGit s) GetSubmodulesList, Ok (VStrings l)) :: blocks
        /\ overrideComplete partialEnv s l blocks)
  /\ exists e',
       outcome_of (run firstSubmoduleBrokenEnv lfsRecursiveSettings) = Throw e'.
Proof.
  split; [split|].
  - exact (proj1 (C6_remote_branch_override partialEnv recursiveSettings
                    eq_refl eq_refl)).
  - apply (proj1 (proj2 (C6_remote_branch_override partialEnv recursiveSettings
                           eq_refl eq_refl))).
    + reflexivity.
    + vm_compute. repeat (first [left; reflexivity | right]).
  - apply (proj2 (proj2 (C6_remote_branch_override firstSubmoduleBrokenEnv
                           lfsRecursiveSettings eq_refl eq_refl))
             eq_refl "libs/a" "failed").
    vm_compute. repeat (first [left; reflexivity | right]).
Defined.

(** With [lfs] set, a submodule whose command manager cannot be created ends
    the loop and the call: its sibling, whose remote has the branch, is
    neither fetched nor checked out. *)
Lemma C6_counterexample :
  let s := lfsRecursiveSettings in
  let env := firstSubmoduleBrokenEnv in
  let out := run env s in
  ~ (In (Git (mainGit s) GetSubmodulesList, Ok (VStrings ["libs/a"; "libs/b"]))
        (log_of out) ->
     (forall h, answer_bool env h (exposes s "libs/b") = Ok true) ->
     exists r0 start r,
       In (Git (subGit s "libs/b") (Checkout r0 start), r) (log_of out)).
Proof.
  cbv zeta. intros H. destruct H as (r0 & start & r & Hin).
  - vm_compute. repeat (first [left; reflexivity | right]).
  - intros h. reflexivity.
  - vm_compute in Hin.
    repeat (destruct Hin as [Hin | Hin]; [discriminate Hin|]). exact Hin.
Qed.

Example failed_creation_ends_the_loop :
  let s := lfsRecursiveSettings in
  proj (overrideScope s) (log_of (run firstSubmoduleBrokenEnv s)) =
  [ (Git (mainGit s) GetSubmodulesList, Ok (VStrings ["libs/a"; "libs/b"]));
    (createSub s "libs/a", Throw "failed") ]
  /\ outcome_of (run firstSubmoduleBrokenEnv s) = Throw "failed".
Proof. split; reflexivity. Qed.

(** Of two submodules, the one whose remote has the branch is fetched and
    checked out, the other one is only asked for the branch. *)
Example sibling_submodules :
  let s := recursiveSettings in
  proj (overrideScope s) (log_of (run partialEnv s)) =
  (Git (mainGit s) GetSubmodulesList, Ok (VStrings ["libs/a"; "libs/b"]))
  :: ((createSub s "libs/a", Ok VUnit)
      :: (exposes s "libs/a", Ok (VBool true))
      :: updateEntries s "libs/a" (mkCheckoutInfo "release" "")
           ["targeted"; "release"; ""])
  ++ [ (createSub s "libs/b", Ok VUnit);
       (exposes s "libs/b", Ok (VBool false)) ].
Proof. reflexivity. Qed.

(** ** [cleanup] *)

Lemma proj_anyCall (l : Log) : proj anyCall l = l.
Proof.
  unfold proj. induction l as [|x l IH]; cbn; [reflexivity|]. now rewrite IH.
Qed.

Section Cleanup.

Variable env : Env.

Lemma cleanup_cases path s :
  spec anyCall (cleanup env path) s (fun out s' l =>
    s' = s /\
    let cfg := FileExistsSync (gitConfigPath env path) in
    ((path = "" /\ l = [] /\ out = Ok tt)
     \/ (exists e, l = [(cfg, Throw e)] /\ out = Throw e)
     \/ (l = [(cfg, Ok (VBool false))] /\ out = Ok tt)
     \/ (exists e, l = [(cfg, Ok (VBool true));
                        (CreateCommandManager path false, Throw e)]
                   /\ out = Ok tt)
     \/ (exists e, l = [(cfg, Ok (VBool true));
                        (CreateCommandManager path false, Ok VUnit);
                        (CreateAuthHelper (mkGit path false), Throw e)]
                   /\ out = Throw e)
     \/ (exists r : Outcome unit,
           l = cleanupCalls env path
               ++ [(RemoveAuth, map_outcome (fun _ => VUnit) r)]
           /\ out = r))).
Proof.
  unfold cleanup.
  repeat spec_step fail ltac:(cbv beta delta [anyCall]; cbn [app]).
  all: split; [reflexivity|]; cbv zeta; unfold cleanupCalls.
  all: repeat match goal with
              | H : negb (truthy ?p) = true |- _ =>
                  destruct p; [clear H | discriminate H]
              | H : negb ?a = _ |- _ =>
                  is_var a; destruct a; try discriminate H; clear H
              | u : unit |- _ => destruct u
              end.
  all: cbn [app]; eauto 10.
  - do 5 right. exists (Ok tt). split; reflexivity.
  - do 5 right. eexists (Throw _). split; reflexivity.
Qed.

End Cleanup.

(** X1: without a path, or when [.git/config] is reported missing,
    [cleanup] returns normally: no command manager is created and
    [removeAuth] is not invoked. *)
Theorem cleanup_without_repository env path s h :
  path = "" \/
  answer_bool env h (FileExistsSync (gitConfigPath env path)) = Ok false ->
  let out := cleanup env path s h in
  outcome_of out = Ok tt
  /\ Forall (fun x => fst x = FileExistsSync (gitConfigPath env path)) (log_of out).
Proof.
  intros H. cbv zeta.
  unfold cleanup, bind, ask, invoke, ret, outcome_of, log_of.
  destruct path as [|c path].
  - cbn. split; [reflexivity | constructor].
  - destruct H as [H | H]; [discriminate H|].
    cbn [truthy negb]. rewrite H. cbn. split; [reflexivity | repeat constructor].
Qed.

Lemma cleanup_without_repository_witness :
  let out := cleanup checkedOutEnv "" demoSettings [] in
  outcome_of out = Ok tt
  /\ Forall (fun x => fst x = FileExistsSync (gitConfigPath checkedOutEnv ""))
       (log_of out).
Proof.
  exact (cleanup_without_repository checkedOutEnv "" demoSettings []
           (or_introl eq_refl)).
Defined.

(** X2: when the command manager cannot be created, [cleanup] swallows the
    error: it returns normally and [removeAuth] is not invoked. *)
Theorem cleanup_swallows_missing_git env path s h e :
  let out := cleanup env path s h in
  In (CreateCommandManager path false, Throw e) (log_of out) ->
  outcome_of out = Ok tt /\ ~ In RemoveAuth (calls (log_of out)).
Proof.
  cbv zeta. intros Hin.
  pose proof (cleanup_cases env path s h) as H. cbv beta zeta in H.
  rewrite proj_anyCall in H. destruct H as [_ H].
  unfold cleanupCalls in H.
  destruct H as [(_ & Hl & _) | [(e' & Hl & _) | [(Hl & _) | [(e' & Hl & Ho)
    | [(e' & Hl & _) | (r & Hl & _)]]]]]; rewrite Hl in Hin |- *; cbn in Hin.
  - destruct Hin.
  - destruct Hin as [Hin | []]. discriminate Hin.
  - destruct Hin as [Hin | []]. discriminate Hin.
  - split; [exact Ho|]. cbn. intros [Hc | [Hc | []]]; discriminate Hc.
  - repeat (destruct Hin as [Hin | Hin]; [discriminate Hin|]). destruct Hin.
  - repeat (destruct Hin as [Hin | Hin]; [discriminate Hin|]). destruct Hin.
Qed.

Lemma cleanup_swallows_missing_git_witness :
  let out := cleanup gitGoneEnv "/work/repo" demoSettings [] in
  outcome_of out = Ok tt /\ ~ In RemoveAuth (calls (log_of out)).
Proof.
  apply (cleanup_swallows_missing_git gitGoneEnv "/work/repo" demoSettings []
           "failed").
  vm_compute. right. left. reflexivity.
Defined.

(** X3: [cleanup] invokes [removeAuth] only as its last call, after it found
    [.git/config], created a command manager for the path without LFS and
    built the auth helper on it; the outcome of [removeAuth] is then the
    outcome of [cleanup]. *)
Theorem cleanup_removes_auth_last env path s h :
  let out := cleanup env path s h in
  In RemoveAuth (calls (log_of out)) ->
  exists r : Outcome unit,
    log_of out = cleanupCalls env path
                 ++ [(RemoveAuth, map_outcome (fun _ => VUnit) r)]
    /\ outcome_of out = r.
Proof.
  cbv zeta. intros Hin.
  pose proof (cleanup_cases env path s h) as H. cbv beta zeta in H.
  rewrite proj_anyCall in H. destruct H as [_ H].
  destruct H as [(_ & Hl & _) | [(e' & Hl & _) | [(Hl & _) | [(e' & Hl & Ho)
    | [(e' & Hl & _) | (r & Hl & Hr)]]]]].
  6: { exists r. split; assumption. }
  all: rewrite Hl in Hin; cbn in Hin;
    repeat (destruct Hin as [Hin | Hin]; [discriminate Hin|]); destruct Hin.
Qed.

Lemma cleanup_removes_auth_last_witness :
  let out := cleanup checkedOutEnv "/work/repo" demoSettings [] in
  exists r : Outcome unit,
    log_of out = cleanupCalls checkedOutEnv "/work/repo"
                 ++ [(RemoveAuth, map_outcome (fun _ => VUnit) r)]
    /\ outcome_of out = r.
Proof.
  apply (cleanup_removes_auth_last checkedOutEnv "/work/repo" demoSettings []).
  vm_compute. do 3 right. left. reflexivity.
Defined.

(** ** What [getSource] leaves alone *)

Section Frame.

Variable env : Env.

Lemma proj_nil_all_off rel (l : Log) :
  proj rel l = [] -> forall c, In c (calls l) -> rel c = false.
Proof.
  intros Hp c Hin. destruct (rel c) eqn:Hc; [|reflexivity].
  exfalso. exact (proj_nil_not_in rel l c Hp Hc Hin).
Qed.

Ltac sub_call_eval :=
  cbn [submoduleCall isSubmoduleOp fst];
  cbv beta delta [onRoot submodulePath];
  cbn [workingDirectory set_ref repositoryPath];
  rewrite ?subpath_fresh, ?String.eqb_refl;
  cbn [negb orb andb app].

Lemma no_submodule_call s :
  submodules s = false ->
  spec (submoduleCall s) (getSource env) s (fun _ _ p => p = []).
Proof.
  intros Hs. unfold getSource.
  repeat spec_step ltac:(sub_call_eval; reflexivity)
                   ltac:(sub_call_eval; rewrite ?Hs).
  all: reflexivity.
Qed.

Lemma no_lfs_call s :
  lfs s = false ->
  spec isLfs (getSource env) s (fun _ _ p => p = []).
Proof.
  intros Hl. unfold getSource.
  repeat spec_step
    ltac:(first [ reflexivity
                | exfalso; cbn [lfs set_ref] in *; congruence ])
    ltac:(cbn [isLfs]; rewrite ?Hl).
  all: reflexivity.
Qed.

End Frame.

(** X5: with [submodules] unset, no submodule operation is made and the
    global credentials are neither configured nor removed. *)
Theorem no_submodule_call_without_submodules env s c :
  submodules s = false ->
  In c (calls (log_of (run env s))) -> submoduleCall s c = false.
Proof.
  intros Hs. apply proj_nil_all_off.
  exact (spec_run _ _ _ _ (no_submodule_call env s Hs)).
Qed.

Lemma no_submodule_call_without_submodules_witness :
  submoduleCall demoSettings
    (Git (mainGit demoSettings) (Checkout "refs/heads/dev" "")) = false.
Proof.
  apply (no_submodule_call_without_submodules demoEnv demoSettings).
  - reflexivity.
  - vm_compute. repeat (first [left; reflexivity | right]).
Defined.

(** X6: with [lfs] unset, no LFS command is run, on the repository or on a
    submodule. *)
Theorem no_lfs_command_without_lfs env s c :
  lfs s = false ->
  In c (calls (log_of (run env s))) -> isLfs c = false.
Proof.
  intros Hl. apply proj_nil_all_off.
  exact (spec_run _ _ _ _ (no_lfs_call env s Hl)).
Qed.

Lemma no_lfs_command_without_lfs_witness :
  isLfs (Git (subGit recursiveSettings "libs/a") (Checkout "release" "")) = false.
Proof.
  apply (no_lfs_command_without_lfs partialEnv recursiveSettings).
  - reflexivity.
  - vm_compute. repeat (first [left; reflexivity | right]).
Defined.

(** ** Preparing the directory and the repository *)

Section Setup.

Variable env : Env.

(** Splits the calls after the first check into those on the directory and
    the later check for [.git]. *)
Ltac directory_split :=
  first
    [ refine (ex_intro _ [_] (ex_intro _ [] (conj eq_refl _)))
    | refine (ex_intro _ [_; _] (ex_intro _ [] (conj eq_refl _)))
    | refine (ex_intro _ [_] (ex_intro _ [_] (conj eq_refl _)))
    | refine (ex_intro _ [_; _] (ex_intro _ [_] (conj eq_refl _))) ].

Ltac directory_later :=
  first
    [ left; reflexivity
    | right; split;
      [ unfold created, createMain; cbn [In]; auto | eexists; reflexivity ] ].

Ltac directory_shape :=
  directory_split;
  (split; [|directory_later]);
  first
    [ left; eexists; first [reflexivity | split; [assumption | reflexivity]]
    | right; eexists; reflexivity
    | right; do 3 eexists;
      refine (conj eq_refl (conj _ eq_refl));
      intros; first [reflexivity | congruence]
    | right; do 3 eexists;
      refine (conj _ (conj _ eq_refl));
      [ eassumption | intros; first [reflexivity | congruence] ] ].

Lemma directory_cases s :
  spec (directoryScope s) (getSource env) s (fun _ _ p =>
    let probe := DirectoryExistsSync (repositoryPath s) in
    p = []
    \/ (exists e, p = [(probe, Throw e)])
    \/ (exists q tail,
          p = (probe, Ok (VBool false)) :: q ++ tail
          /\ freshDirectory s q /\ laterProbe env s q tail)
    \/ (exists q tail,
          p = (probe, Ok (VBool true)) :: q ++ tail
          /\ existingDirectory env s q /\ laterProbe env s q tail)).
Proof.
  unfold getSource, freshDirectory, existingDirectory, laterProbe,
    managerAfter, mainGit.
  repeat spec_step ltac:(cbn [directoryScope]; off_root)
    ltac:(cbn [directoryScope]; rewrite ?String.eqb_refl; cbn [app]).
  all: cbv zeta;
    repeat match goal with
           | H : negb ?a = _ |- _ =>
               is_var a; destruct a; try discriminate H; clear H
           end.
  all: try solve [left; reflexivity].
  all: try solve [right; left; eexists; reflexivity].
  all: right; right.
  all: first
    [ left; directory_shape | right; directory_shape ].
Qed.

Lemma conflict_cases s :
  spec conflictScope (getSource env) s (fun _ _ p =>
    let probe := FileExistsSync (repositoryPath s) in
    p = []
    \/ (exists r, p = [(probe, r)] /\ r <> Ok (VBool true))
    \/ (exists r, p = [(probe, Ok (VBool true)); (RmRF (repositoryPath s), r)])).
Proof.
  unfold getSource.
  repeat spec_step reflexivity ltac:(cbn [conflictScope app]).
  all: cbv zeta; subst.
  all: first
    [ left; reflexivity
    | right; right; eexists; reflexivity
    | right; left; eexists; split; [reflexivity | discriminate] ].
Qed.

Lemma init_cases s :
  spec initScope (getSource env) s (fun _ _ p =>
    let root := DirectoryExistsSync (repositoryPath s) in
    let dotGit := DirectoryExistsSync (pathJoin env (repositoryPath s) ".git") in
    let g := mainGit s in
    p = []
    \/ (exists r, p = [(root, r)])
    \/ (exists b r, p = [(root, Ok (VBool b)); (dotGit, r)]
                    /\ r <> Ok (VBool false))
    \/ (exists b e, p = [(root, Ok (VBool b)); (dotGit, Ok (VBool false));
                         (Git g Init, Throw e)])
    \/ (exists b url r,
          getFetchUrl env s = Ok url
          /\ p = [(root, Ok (VBool b)); (dotGit, Ok (VBool false));
                  (Git g Init, Ok VUnit);
                  (Git g (RemoteAdd "origin" url), r)])).
Proof.
  unfold getSource, mainGit.
  repeat spec_step reflexivity ltac:(cbn [initScope app]).
  all: cbv zeta;
    repeat match goal with
           | H : negb ?a = _ |- _ =>
               is_var a; destruct a; try discriminate H; clear H
           end.
  all: first
    [ left; reflexivity
    | right; left; eexists; reflexivity
    | right; right; left; do 2 eexists; split; [reflexivity | discriminate]
    | right; right; right; left; do 2 eexists; reflexivity
    | right; right; right; right; do 3 eexists; split; reflexivity ].
Qed.

Lemma gc_cases s :
  spec gcScope (getSource env) s (fun out _ p =>
    let g := mainGit s in
    let disable := Git g TryDisableAutomaticGarbageCollection in
    p = []
    \/ (exists e, p = [(disable, Throw e)])
    \/ (exists b r, p = [(disable, Ok (VBool b)); (CreateAuthHelper g, r)])).
Proof.
  unfold getSource, mainGit.
  repeat spec_step reflexivity ltac:(cbn [gcScope app]).
  all: cbv zeta; eauto 6.
Qed.

Lemma state_cases s :
  spec (stateScope s) (getSource env) s (fun _ _ p =>
    p = []
    \/ (exists e, p = [(createMain s, Throw e)])
    \/ (exists e r, lfs s = false
                    /\ p = [(createMain s, Throw e); (downloadCall s, r)])
    \/ p = [created s]
    \/ (exists r, p = [created s; (SetRepositoryPath (repositoryPath s), r)])).
Proof.
  unfold getSource, created, createMain, downloadCall.
  repeat spec_step ltac:(cbn [stateScope]; off_root)
    ltac:(cbn [stateScope]; rewrite ?String.eqb_refl; cbn [app]).
  all: eauto 8.
Qed.

End Setup.

(** X7: [mkdirP] is invoked exactly when [directoryExistsSync] reports that
    the directory of the repository is missing, and a directory created that
    way is never handed to [prepareExistingDirectory]; a directory reported
    as existing is never created and is prepared once, right after the
    attempt to create the command manager, with the manager or with
    [undefined], and with the ref and the clean flag of the settings as they
    were given.  The only other check for a directory is the later one for
    [.git]. *)
Theorem directory_is_created_or_prepared env s :
  let p := proj (directoryScope s) (log_of (run env s)) in
  let probe := DirectoryExistsSync (repositoryPath s) in
  p = []
  \/ (exists e, p = [(probe, Throw e)])
  \/ (exists q tail,
        p = (probe, Ok (VBool false)) :: q ++ tail
        /\ freshDirectory s q /\ laterProbe env s q tail)
  \/ (exists q tail,
        p = (probe, Ok (VBool true)) :: q ++ tail
        /\ existingDirectory env s q /\ laterProbe env s q tail).
Proof. exact (spec_run _ _ _ _ (directory_cases env s)). Qed.

(** X8: [rmRF] is invoked exactly when [fileExistsSync] reports a file at
    the repository path, once, on that path. *)
Theorem conflicting_file_is_removed env s :
  let p := proj conflictScope (log_of (run env s)) in
  let probe := FileExistsSync (repositoryPath s) in
  p = []
  \/ (exists r, p = [(probe, r)] /\ r <> Ok (VBool true))
  \/ (exists r, p = [(probe, Ok (VBool true)); (RmRF (repositoryPath s), r)]).
Proof. exact (spec_run _ _ _ _ (conflict_cases env s)). Qed.

(** X9: [git init] is run exactly when the [.git] directory is reported
    missing, on the command manager of the repository only, and a successful
    [init] is followed by [remoteAdd('origin', url)] with the fetch URL of
    the settings. *)
Theorem repository_is_initialized_once env s :
  let p := proj initScope (log_of (run env s)) in
  let root := DirectoryExistsSync (repositoryPath s) in
  let dotGit := DirectoryExistsSync (pathJoin env (repositoryPath s) ".git") in
  let g := mainGit s in
  p = []
  \/ (exists r, p = [(root, r)])
  \/ (exists b r, p = [(root, Ok (VBool b)); (dotGit, r)]
                  /\ r <> Ok (VBool false))
  \/ (exists b e, p = [(root, Ok (VBool b)); (dotGit, Ok (VBool false));
                       (Git g Init, Throw e)])
  \/ (exists b url r,
        getFetchUrl env s = Ok url
        /\ p = [(root, Ok (VBool b)); (dotGit, Ok (VBool false));
                (Git g Init, Ok VUnit);
                (Git g (RemoteAdd "origin" url), r)]).
Proof. exact (spec_run _ _ _ _ (init_cases env s)). Qed.

(** X10: whether [tryDisableAutomaticGarbageCollection] returns [true] or
    [false], the acquisition goes on with [createAuthHelper]; only a thrown
    error stops it there. *)
Theorem garbage_collection_is_not_fatal env s :
  let p := proj gcScope (log_of (run env s)) in
  let g := mainGit s in
  let disable := Git g TryDisableAutomaticGarbageCollection in
  p = []
  \/ (exists e, p = [(disable, Throw e)])
  \/ (exists b r, p = [(disable, Ok (VBool b)); (CreateAuthHelper g, r)]).
Proof. exact (spec_run _ _ _ _ (gc_cases env s)). Qed.

(** X11: the path is saved for the POST action only after the command
    manager of the repository was created, once, with the repository path,
    and never in a run that downloads the archive. *)
Theorem path_is_saved_on_native_path_only env s :
  let p := proj (stateScope s) (log_of (run env s)) in
  p = []
  \/ (exists e, p = [(createMain s, Throw e)])
  \/ (exists e r, lfs s = false
                  /\ p = [(createMain s, Throw e); (downloadCall s, r)])
  \/ p = [created s]
  \/ (exists r, p = [created s; (SetRepositoryPath (repositoryPath s), r)]).
Proof. exact (spec_run _ _ _ _ (state_cases env s)). Qed.


(** ** Checkout, commit check and teardown *)

Section Checkout.

Variable env : Env.

Ltac root_eval :=
  cbv beta delta [onRoot];
  cbn [workingDirectory set_ref repositoryPath];
  cbv beta delta [submodulePath];
  rewrite ?subpath_fresh, ?String.eqb_refl;
  cbn [negb app].


Lemma commit_cases s :
  spec commitScope (getSource env) s (fun _ s' p =>
    let g := mainGit s in
    let format := Some "--format='%H'" in
    p = []
    \/ (exists e, p = [(Git g (Log1 None), Throw e)])
    \/ (exists info e, p = [(Git g (Log1 None), Ok (VString info));
                            (Git g (Log1 format), Throw e)])
    \/ (exists info sha r,
          p = [(Git g (Log1 None), Ok (VString info));
               (Git g (Log1 format), Ok (VString sha));
               (commitCheck s s' info, r)])).
Proof.
  unfold getSource, mainGit, commitCheck.
  repeat spec_step reflexivity ltac:(cbn [commitScope app]).
  all: cbv zeta; cbn [ref set_ref]; eauto 8.
Qed.

Lemma commit_verified s :
  spec verifiedScope (getSource env) s (fun out s' q =>
    out = Ok tt ->
    q = [] \/ exists r info x y,
                q = [(ConfigureAuth, r); x; y; (commitCheck s s' info, Ok VUnit)]).
Proof.
  unfold getSource, commitCheck.
  repeat spec_step reflexivity ltac:(cbn [verifiedScope commitScope app]).
  all: intros Hout; try discriminate Hout.
  all: cbn [ref set_ref]; eauto 8.
Qed.

Lemma teardown_masks s :
  spec teardownScope (getSource env) s (fun out _ p =>
    (forall e, In (RemoveAuth, Throw e) p -> out = Throw e)
    /\ (forall e, In (RemoveGlobalAuth, Throw e) p ->
                  (forall e', ~ In (RemoveAuth, Throw e') p) -> out = Throw e)).
Proof.
  unfold getSource.
  repeat spec_step reflexivity ltac:(cbn [teardownScope app]).
  all: split; [intros ? Hin | intros ? Hin Hno]; cbn [In] in Hin;
    repeat match goal with
           | H : _ \/ _ |- _ => destruct H
           | H : False |- _ => destruct H
           | H : (_, _) = (_, _) |- _ =>
               first [discriminate H | injection H as <-]
           end;
    try reflexivity;
    try (exfalso; eapply Hno; cbn [In]; eauto).
Qed.


Lemma lfs_install_first s :
  lfs s = true ->
  spec (lfsOrderScope s) (getSource env) s (fun _ _ p =>
    let install := Git (mainGit s) LfsInstall in
    p = []
    \/ (exists e, p = [(install, Throw e)])
    \/ (exists fetches, p = (install, Ok VUnit) :: fetches
                        /\ Forall isFetchEntry fetches)).
Proof.
  intros Hl. unfold getSource, mainGit.
  repeat spec_step ltac:(cbn [lfsOrderScope]; root_eval; reflexivity)
                   ltac:(cbn [lfsOrderScope]; root_eval; rewrite ?Hl).
  all: cbv zeta.
  all: try solve [left; reflexivity].
  all: try solve [right; left; eexists; reflexivity].
  all: right; right; eexists; refine (conj eq_refl _);
    repeat first
      [ apply Forall_nil
      | apply Forall_cons; [unfold isFetchEntry; cbn [fst]; eauto|] ].
Qed.

End Checkout.


(** X13: [checkCommitInfo] is given the output of the first [git.log1()],
    the token, owner and name of the settings, the ref they hold at the end
    and their commit, and it is invoked only after both [log1] calls
    returned.  A call that invoked [configureAuth] and completed normally
    has passed this check. *)
Theorem commit_is_checked env s :
  let out := run env s in
  let p := proj commitScope (log_of out) in
  let g := mainGit s in
  let format := Some "--format='%H'" in
  (p = []
   \/ (exists e, p = [(Git g (Log1 None), Throw e)])
   \/ (exists info e, p = [(Git g (Log1 None), Ok (VString info));
                           (Git g (Log1 format), Throw e)])
   \/ (exists info sha r,
         p = [(Git g (Log1 None), Ok (VString info));
              (Git g (Log1 format), Ok (VString sha));
              (commitCheck s (settings_of out) info, r)]))
  /\ (outcome_of out = Ok tt -> In ConfigureAuth (calls (log_of out)) ->
      exists info,
        In (commitCheck s (settings_of out) info, Ok VUnit) (log_of out)).
Proof.
  cbv zeta. split.
  - exact (spec_run _ _ _ _ (commit_cases env s)).
  - intros Hout Hin.
    destruct (in_calls_proj verifiedScope _ _ Hin eq_refl) as [r Hr].
    destruct (spec_run _ _ _ _ (commit_verified env s) Hout)
      as [Hq | (r' & info & x & y & Hq)]; rewrite Hq in Hr.
    + destruct Hr.
    + exists info.
      assert (Hl : In (commitCheck s (settings_of (run env s)) info, Ok VUnit)
                     (proj verifiedScope (log_of (run env s))))
        by (rewrite Hq; cbn; auto).
      apply filter_In in Hl. exact (proj1 Hl).
Qed.

Lemma commit_is_checked_witness :
  let out := run demoEnv demoSettings in
  exists info,
    In (commitCheck demoSettings (settings_of out) info, Ok VUnit) (log_of out).
Proof.
  apply (proj2 (commit_is_checked demoEnv demoSettings)).
  - reflexivity.
  - vm_compute. repeat (first [left; reflexivity | right]).
Defined.

(** X14: an error thrown by [removeAuth] is the outcome of [getSource],
    whatever happened before: it replaces a normal completion and any
    earlier error.  The same holds for an error thrown by
    [removeGlobalAuth], unless [removeAuth] throws after it. *)
Theorem teardown_error_is_surfaced env s :
  let out := run env s in
  (forall e, In (RemoveAuth, Throw e) (log_of out) -> outcome_of out = Throw e)
  /\ (forall e, In (RemoveGlobalAuth, Throw e) (log_of out) ->
                (forall e', ~ In (RemoveAuth, Throw e') (log_of out)) ->
                outcome_of out = Throw e).
Proof.
  cbv zeta.
  destruct (spec_run _ _ _ _ (teardown_masks env s)) as [H1 H2].
  split.
  - intros e Hin. apply H1. now apply in_proj.
  - intros e Hin Hno. apply H2; [now apply in_proj|].
    intros e' Hp. apply (Hno e'). apply filter_In in Hp. exact (proj1 Hp).
Qed.

Lemma teardown_error_is_surfaced_witness :
  outcome_of (run brokenTeardownEnv demoSettings) = Throw "failed"
  /\ outcome_of (run brokenGlobalTeardownEnv recursiveSettings) = Throw "failed".
Proof.
  split.
  - apply (proj1 (teardown_error_is_surfaced brokenTeardownEnv demoSettings)).
    vm_compute. repeat (first [left; reflexivity | right]).
  - apply (proj2 (teardown_error_is_surfaced brokenGlobalTeardownEnv
                    recursiveSettings)).
    + vm_compute. repeat (first [left; reflexivity | right]).
    + intros e'. vm_compute. intros H.
      repeat (destruct H as [H | H]; [discriminate H|]). exact H.
Defined.


(** X16: with [lfs], [lfsInstall] runs on the repository before anything is
    fetched, and nothing is fetched when it throws. *)
Theorem lfs_is_installed_before_fetch env s :
  lfs s = true ->
  let p := proj (lfsOrderScope s) (log_of (run env s)) in
  let install := Git (mainGit s) LfsInstall in
  p = []
  \/ (exists e, p = [(install, Throw e)])
  \/ (exists fetches, p = (install, Ok VUnit) :: fetches
                      /\ Forall isFetchEntry fetches).
Proof.
  intros Hl. exact (spec_run _ _ _ _ (lfs_install_first env s Hl)).
Qed.

Lemma lfs_is_installed_before_fetch_witness :
  let s := lfsRecursiveSettings in
  let p := proj (lfsOrderScope s) (log_of (run movedEnv s)) in
  let install := Git (mainGit s) LfsInstall in
  p = []
  \/ (exists e, p = [(install, Throw e)])
  \/ (exists fetches, p = (install, Ok VUnit) :: fetches
                      /\ Forall isFetchEntry fetches).
Proof.
  exact (lfs_is_installed_before_fetch movedEnv lfsRecursiveSettings eq_refl).
Defined.
